(** * yolo3/train.py: the adversarial training loop and its learning-rate schedule

    A shallow embedding of [AdvLossModel] (loss aggregation, training and
    validation step, distributed epoch, [fit]) and of
    [CosineLearningRateWithLinearWarmup], with the properties of the
    written specification stated over it.

    Conventions of the embedding.
    - Tensor scalars are real numbers extended with one non-finite value
      (standing for the IEEE infinities and NaN); rounding and overflow of
      [float32] are not modelled.
    - Attributes stored on [self] live in the world; reading an attribute
      that was never assigned raises [AttributeError].
    - Every call into an external collaborator with an effect (callback
      methods, optimizer, moving average, summary writer, printing, replica
      dispatch) is appended to a trace.
    - External collaborators (the network, its loss objects, the adversarial
      loss provider, automatic differentiation, the optimizer, the
      distribution strategy, callbacks) are the fields of a [Backend] or
      arguments, and return normally.
    - A callback is handed the model ([set_model(self)]): its methods can
      change the variables, the optimizer state and the attributes of the
      model, besides the log and the state outside the model. A callback may
      assign attributes of the model; it is not taken to delete any.
    - The step function runs on every replica from the same variables; what
      the replicas hand to the optimizer is summed and applied once per
      batch, as a [tf.distribute] strategy does in a replica context.
    - [@tf.function] on [_distributed_epoch] is read as a call of the
      decorated body: the reuse of an earlier trace by a later call is not
      modelled. *)

From Stdlib Require Import Reals Lra ZArith Lia.
From stdpp Require Import base list strings gmap.

(** ** Tensor scalars *)

Inductive scalar : Type :=
| Fin (r : R)
| NonFin.

Definition sadd (x y : scalar) : scalar :=
  match x, y with
  | Fin a, Fin b => Fin (a + b)
  | _, _ => NonFin
  end.

Definition smul (x y : scalar) : scalar :=
  match x, y with
  | Fin a, Fin b => Fin (a * b)
  | _, _ => NonFin
  end.

(** Division of a tensor by a finite number: a zero divisor gives a
    non-finite tensor and no exception. *)
Definition sdiv (x : scalar) (d : R) : scalar :=
  match x with
  | Fin a => if Req_dec_T d 0 then NonFin else Fin (a / d)
  | NonFin => NonFin
  end.
Arguments sdiv : simpl never.

Definition scos (x : scalar) : scalar :=
  match x with
  | Fin a => Fin (cos a)
  | NonFin => NonFin
  end.

Definition is_finite (x : scalar) : Prop :=
  match x with
  | Fin _ => True
  | NonFin => False
  end.

Definition sle (x y : scalar) : Prop :=
  match x, y with
  | Fin a, Fin b => (a <= b)%R
  | _, _ => False
  end.

(** The mathematical sum of a sequence of scalars. *)
Definition ssum (l : list scalar) : scalar := foldr sadd (Fin 0) l.

(** ** The learning-rate schedule *)

Module CosineLearningRateWithLinearWarmup.

Record t : Type := __init__ {
  lr : R;
  total_steps : R;
  warmup_lr : R;
  warmup_steps : R
}.

Definition linear_warmup (self : t) (global_step : R) : scalar :=
  sadd (Fin (warmup_lr self))
       (smul (sdiv (Fin global_step) (warmup_steps self))
             (Fin (lr self - warmup_lr self))).

Definition consine_lr (self : t) (global_step : R) : scalar :=
  sdiv (smul (Fin (lr self))
             (sadd (scos (sdiv (Fin (PI * (global_step - warmup_steps self)))
                               (total_steps self - warmup_steps self)))
                   (Fin 1)))
       2.

Definition __call__ (self : t) (global_step : R) : scalar :=
  if Rlt_dec global_step (warmup_steps self)
  then linear_warmup self global_step
  else consine_lr self global_step.

End CosineLearningRateWithLinearWarmup.

(** The largest finite [float32] number: tensor arithmetic whose exact
    results stay within it does not overflow. *)
Definition float32_max : R := ((2 - / 2 ^ 23) * 2 ^ 127)%R.

(** ** Configuration, errors and collaborators *)

Record AdvConfig : Type := make_adv_reg_config {
  multiplier : R;
  adv_step_size : R;
  adv_grad_norm : string
}.

(** The default of [fit]'s [adv_config] parameter. *)
Definition default_adv_config : AdvConfig :=
  make_adv_reg_config 0.2 0.2 "infinity".

Inductive Exn : Type :=
| AttributeError (attr : string)
| LengthMismatch.

Inductive outcome (A : Type) : Type :=
| Ret (a : A)
| Raise (e : Exn).
Arguments Ret {A} a.
Arguments Raise {A} e.

(** What the training loop needs from outside: the network, its registered
    loss objects, the adversarial loss provider, automatic differentiation,
    the optimizer, image arithmetic and the distribution strategy. *)
Class Backend : Type := {
  Params : Type;
  Opt : Type;
  Grads : Type;
  Image : Type;
  Target : Type;
  Pred : Type;
  Writer : Type;
  SampleWeights : Type;
  Ext : Type;
  (** [self(images, training=...)] at given parameter values. *)
  call_model : Params -> Image -> bool -> list Pred;
  (** [self.loss]: one loss object per output. *)
  loss : list (Target -> Pred -> scalar);
  (** [nsl.keras.adversarial_loss(images, y_trues, self, loss_fn,
      labeled_loss, gradient_tape, adv_config)]. *)
  adversarial_loss :
    Image -> list Target -> Params ->
    (list Target -> list Pred -> outcome scalar) -> scalar -> AdvConfig -> scalar;
  (** [tape.gradient(loss, self.trainable_variables)]: the gradient, at the
      current parameters, of the computation the tape recorded. *)
  tape_gradient : (Params -> outcome scalar) -> Params -> Grads;
  (** [self.optimizer.apply_gradients(zip(gradients, variables))], outside
      a replica context. *)
  apply_gradients : Opt -> Grads -> Params -> Opt * Params;
  (** [images * 255]. *)
  scale_image : Image -> R -> Image;
  (** [tf.cast(images, tf.uint8)]. *)
  cast_uint8 : Image -> Image;
  (** The values a distributed batch takes on the replicas; a strategy has
      at least one replica. *)
  per_replica : Image * list Target -> list (Image * list Target);
  replicas_exist : forall batch, per_replica batch <> [];
  (** The sum over the replicas of the gradients they computed. *)
  all_reduce_sum : list Grads -> Grads
}.

(** [EpochLog]: the [logs] dict. *)
Abbreviation Log := (gmap string scalar).

Section Training.
Context `{B : Backend}.

Definition Batch : Type := Image * list Target.

(** The four hooks of the callback protocol that take the log. *)
Inductive Hook : Type :=
| OnTrainBegin
| OnEpochBegin (epoch : Z)
| OnEpochEnd (epoch : Z)
| OnTrainEnd.

(** The attributes [fit] stores on the model; [None] is an attribute that
    was never assigned ([writer] may itself hold Python's [None]). *)
Record TrainingState : Type := {
  writer : option (option Writer);
  use_ema : option bool;
  use_adv : option bool;
  adv_config : option AdvConfig
}.

(** An assignment to one of these attributes: [self.writer = value], ... *)
Inductive Assignment : Type :=
| AssignWriter (value : option Writer)
| AssignUseEma (value : bool)
| AssignUseAdv (value : bool)
| AssignAdvConfig (value : AdvConfig).

Definition assign (s : TrainingState) (a : Assignment) : TrainingState :=
  match a with
  | AssignWriter value =>
      {| writer := Some value; use_ema := use_ema s;
         use_adv := use_adv s; adv_config := adv_config s |}
  | AssignUseEma value =>
      {| writer := writer s; use_ema := Some value;
         use_adv := use_adv s; adv_config := adv_config s |}
  | AssignUseAdv value =>
      {| writer := writer s; use_ema := use_ema s;
         use_adv := Some value; adv_config := adv_config s |}
  | AssignAdvConfig value =>
      {| writer := writer s; use_ema := use_ema s;
         use_adv := use_adv s; adv_config := Some value |}
  end.

(** What a callback method can reach: the model it was handed by
    [set_model(self)] (variables, optimizer, attributes) and the state
    outside the model. *)
Record Reach : Type := {
  model_variables : Params;
  model_optimizer : Opt;
  model_attributes : TrainingState;
  own_state : Ext
}.

(** What a callback method leaves behind: the variables and the optimizer
    state of the model, the attributes it assigned on the model, and the
    state outside the model. *)
Record Touch : Type := {
  new_variables : Params;
  new_optimizer : Opt;
  assignments : list Assignment;
  new_own_state : Ext
}.

(** A callback: its five methods. The methods that take the log return
    the log as they leave it (the dict is shared and mutable). *)
Record Callback : Type := {
  set_model : Reach -> Touch;
  on_train_begin : Log -> Reach -> Log * Touch;
  on_epoch_begin : Z -> Log -> Reach -> Log * Touch;
  on_epoch_end : Z -> Log -> Reach -> Log * Touch;
  on_train_end : Log -> Reach -> Log * Touch
}.

Inductive Watched : Type := WatchVariables | WatchImages.

(** Where a step runs: called directly, or by the strategy on a replica. *)
Inductive Context : Type := CrossReplica | InReplica.

(** In a replica context the optimizer and the moving average do not
    update the variables themselves: the call is handed to the strategy,
    which merges the calls of all replicas. *)
Inductive MergeCall : Type :=
| DistributedApply (gradients : Grads)
| AssignMovingAverage (decay : R) (zero_debias : bool).

Inductive Event : Type :=
| EvGradientTape (watched : Watched)
| EvApplyGradients (gradients : Grads)
| EvEmaApply (decay : R) (zero_debias : bool) (variables : Params)
| EvSummaryImage (w : Writer) (images : Image) (max_outputs : Z)
| EvRun (training : bool) (batch : Batch)
| EvReduce (per_replica_loss : list scalar) (reduced : scalar)
| EvPrint (num_batches : R) (mean : scalar)
| EvEpochResult (training : bool) (mean_loss : scalar)
| EvSetModel (callback : Callback)
| EvHook (callback : Callback) (h : Hook) (logs logs' : Log).

Record World : Type := {
  trainable_variables : Params;
  optimizer : Opt;
  state : TrainingState;
  ext : Ext;
  trace : list Event
}.

(** ** The state and error monad of the embedding *)

Definition M (A : Type) : Type := World -> outcome A * World.

Definition ret {A} (a : A) : M A := fun w => (Ret a, w).

Definition bind {A C} (m : M A) (k : A -> M C) : M C :=
  fun w =>
    match m w with
    | (Ret a, w') => k a w'
    | (Raise e, w') => (Raise e, w')
    end.

Definition lift {A} (o : outcome A) : M A := fun w => (o, w).

Definition gets {A} (f : World -> A) : M A := fun w => (Ret (f w), w).

Definition getattr {A} (attr : string) (f : TrainingState -> option A) : M A :=
  fun w =>
    match f (state w) with
    | Some a => (Ret a, w)
    | None => (Raise (AttributeError attr), w)
    end.

Definition setattr (a : Assignment) : M unit :=
  fun w =>
    (Ret tt,
     {| trainable_variables := trainable_variables w;
        optimizer := optimizer w;
        state := assign (state w) a;
        ext := ext w;
        trace := trace w |}).

Definition emit (ev : Event) : M unit :=
  fun w =>
    (Ret tt,
     {| trainable_variables := trainable_variables w;
        optimizer := optimizer w;
        state := state w;
        ext := ext w;
        trace := trace w ++ [ev] |}).

End Training.

Notation "x <- m ;; k" := (bind m (fun x => k))
  (at level 100, m at next level, right associativity).
Notation "m ;; k" := (bind m (fun _ => k))
  (at level 100, right associativity).

Section Model.
Context `{B : Backend}.

(** [for x in xs: acc = body(acc, x)]. *)
Fixpoint for_each {A S} (xs : list A) (body : S -> A -> M S) (acc : S) : M S :=
  match xs with
  | [] => ret acc
  | x :: rest => acc' <- body acc x ;; for_each rest body acc'
  end.

(** Python's [zip] of three sequences: it stops with the shortest. *)
Fixpoint zip3 {X Y Z'} (xs : list X) (ys : list Y) (zs : list Z')
  : list (X * Y * Z') :=
  match xs, ys, zs with
  | x :: xs', y :: ys', z :: zs' => (x, y, z) :: zip3 xs' ys' zs'
  | _, _, _ => []
  end.

(** Python's [range(n)]. *)
Definition range (n : Z) : list Z := map Z.of_nat (seq 0 (Z.to_nat n)).

(** ** AdvLossModel *)

Definition _compute_total_loss (y_trues : list Target) (y_preds : list Pred)
    (sample_weights : option SampleWeights) : outcome scalar :=
  Ret (fold_left
         (fun acc '(y_true, y_pred, loss_object) =>
            sadd acc (loss_object y_true y_pred))
         (zip3 y_trues y_preds loss)
         (Fin 0)).

(** The computation recorded by the parameter tape of [_train_step], as a
    function of the parameter values. *)
Definition labeled_objective (images : Image) (y_trues : list Target)
    (p : Params) : outcome scalar :=
  _compute_total_loss y_trues (call_model p images true) None.

Definition adversarial_objective (cfg : AdvConfig) (images : Image)
    (y_trues : list Target) (p : Params) : outcome scalar :=
  match _compute_total_loss y_trues (call_model p images true) None with
  | Ret l =>
      let adv_loss :=
        adversarial_loss images y_trues p
          (fun yt yp => _compute_total_loss yt yp None) l cfg in
      Ret (sadd l (smul (Fin (multiplier cfg)) adv_loss))
  | Raise e => Raise e
  end.

Definition set_variables (o : Opt) (p : Params) : M unit :=
  fun w =>
    (Ret tt,
     {| trainable_variables := p;
        optimizer := o;
        state := state w;
        ext := ext w;
        trace := trace w |}).

(** [self.optimizer.apply_gradients(zip(gradients, variables))]: called
    directly, the optimizer updates the variables; on a replica the call is
    a merge call and the result names it. *)
Definition optimizer_apply_gradients (ctx : Context) (gradients : Grads)
  : M (list MergeCall) :=
  match ctx with
  | CrossReplica =>
      o <- gets optimizer ;;
      variables <- gets trainable_variables ;;
      (let '(o', variables') := apply_gradients o gradients variables in
       set_variables o' variables') ;;
      emit (EvApplyGradients gradients) ;;
      ret []
  | InReplica => ret [DistributedApply gradients]
  end.

(** [ema.apply(self.trainable_variables)] of a moving average built with
    [decay] and [zero_debias]. *)
Definition ema_apply (ctx : Context) (decay : R) (zero_debias : bool)
  : M (list MergeCall) :=
  match ctx with
  | CrossReplica =>
      updated <- gets trainable_variables ;;
      emit (EvEmaApply decay zero_debias updated) ;;
      ret []
  | InReplica => ret [AssignMovingAverage decay zero_debias]
  end.

(** [_train_step], in the context it is called in: the loss it returns,
    and the merge calls it made when it ran on a replica. *)
Definition train_step_in (ctx : Context) (inputs : Batch)
  : M (scalar * list MergeCall) :=
  let '(images, y_trues) := inputs in
  emit (EvGradientTape WatchVariables) ;;
  adv <- getattr "use_adv" use_adv ;;
  objective <-
    (if adv : bool then
       emit (EvGradientTape WatchImages) ;;
       cfg <- getattr "adv_config" adv_config ;;
       ret (adversarial_objective cfg images y_trues)
     else ret (labeled_objective images y_trues)) ;;
  variables <- gets trainable_variables ;;
  l <- lift (objective variables) ;;
  let gradients := tape_gradient objective variables in
  optimizer_op <- optimizer_apply_gradients ctx gradients ;;
  ema <- getattr "use_ema" use_ema ;;
  averaged <-
    (if ema : bool then ema_apply ctx 0.9999 true else ret []) ;;
  ret (l, optimizer_op ++ averaged).

(** [_train_step] called directly. *)
Definition _train_step (inputs : Batch) : M scalar :=
  result <- train_step_in CrossReplica inputs ;;
  ret (fst result).

Definition _val_step (inputs : Batch) : M scalar :=
  let '(images, y_trues) := inputs in
  variables <- gets trainable_variables ;;
  let y_preds := call_model variables images false in
  l <- lift (_compute_total_loss y_trues y_preds None) ;;
  ret l.

(** [_val_step] makes no call that depends on the context. *)
Definition val_step_in (ctx : Context) (inputs : Batch)
  : M (scalar * list MergeCall) :=
  l <- _val_step inputs ;;
  ret (l, []).

(** The step function runs on the value the batch takes on each replica.
    No replica updates the variables, so every replica computes from the
    variables the batch started with. *)
Fixpoint run_replicas (fn : Context -> Batch -> M (scalar * list MergeCall))
    (shards : list Batch) : M (list scalar * list MergeCall) :=
  match shards with
  | [] => ret ([], [])
  | shard :: rest =>
      result <- fn InReplica shard ;;
      results <- run_replicas fn rest ;;
      ret (fst result :: fst results, snd result ++ snd results)
  end.

Definition gradients_of (calls : list MergeCall) : list Grads :=
  omap (fun call => match call with
                    | DistributedApply gradients => Some gradients
                    | _ => None
                    end) calls.

Definition averages_of (calls : list MergeCall) : list (R * bool) :=
  omap (fun call => match call with
                    | AssignMovingAverage decay zero_debias =>
                        Some (decay, zero_debias)
                    | _ => None
                    end) calls.

(** The merge of the calls of all replicas: the optimizer is applied once,
    to the sum of the replicas' gradients; then the moving average is
    updated once, over the variables as updated. *)
Definition merge (calls : list MergeCall) : M unit :=
  match gradients_of calls with
  | [] => ret tt
  | _ :: _ =>
      let gradients := all_reduce_sum (gradients_of calls) in
      o <- gets optimizer ;;
      variables <- gets trainable_variables ;;
      (let '(o', variables') := apply_gradients o gradients variables in
       set_variables o' variables') ;;
      emit (EvApplyGradients gradients)
  end ;;
  match averages_of calls with
  | [] => ret tt
  | (decay, zero_debias) :: _ =>
      updated <- gets trainable_variables ;;
      emit (EvEmaApply decay zero_debias updated)
  end.

(** [strategy.experimental_run_v2(fn, args=(batch,))]. *)
Definition experimental_run_v2 (training : bool)
    (fn : Context -> Batch -> M (scalar * list MergeCall)) (batch : Batch)
  : M (list scalar) :=
  emit (EvRun training batch) ;;
  results <- run_replicas fn (per_replica batch) ;;
  merge (snd results) ;;
  ret (fst results).

(** [strategy.reduce(tf.distribute.ReduceOp.SUM, per_replica_loss, axis=None)]. *)
Definition reduce_sum (per_replica_loss : list scalar) : M scalar :=
  let reduced := ssum per_replica_loss in
  emit (EvReduce per_replica_loss reduced) ;;
  ret reduced.

Definition epoch_batch (step : bool) (acc : scalar * R) (batch : Batch)
  : M (scalar * R) :=
  let '(total_loss, num_batches) := acc in
  wr <- getattr "writer" writer ;;
  match wr with
  | Some handle =>
      emit (EvSummaryImage handle (cast_uint8 (scale_image (fst batch) 255)) 8)
  | None => ret tt
  end ;;
  per_replica_loss <-
    experimental_run_v2 step (if step then train_step_in else val_step_in)
      batch ;;
  reduced <- reduce_sum per_replica_loss ;;
  let total_loss := sadd total_loss reduced in
  let num_batches := (num_batches + 1)%R in
  emit (EvPrint num_batches (sdiv total_loss num_batches)) ;;
  ret (total_loss, num_batches).

Definition _distributed_epoch (dataset : list Batch) (step : bool) (num : Z)
  : M scalar :=
  acc <- for_each dataset (epoch_batch step) (Fin 0, 0%R) ;;
  let '(total_loss, num_batches) := acc in
  let total_loss := sdiv total_loss num_batches in
  emit (EvEpochResult step total_loss) ;;
  ret total_loss.

(** What a callback method is handed of the world. *)
Definition reach (w : World) : Reach :=
  {| model_variables := trainable_variables w;
     model_optimizer := optimizer w;
     model_attributes := state w;
     own_state := ext w |}.

(** What a callback method did becomes the state of the world. *)
Definition touch (t : Touch) : M unit :=
  fun w =>
    (Ret tt,
     {| trainable_variables := new_variables t;
        optimizer := new_optimizer t;
        state := foldl assign (state w) (assignments t);
        ext := new_own_state t;
        trace := trace w |}).

(** [callback.set_model(self)]. *)
Definition call_set_model (callback : Callback) : M unit :=
  r <- gets reach ;;
  touch (set_model callback r) ;;
  emit (EvSetModel callback).

Definition _configure_callbacks (callbacks : list Callback) : M unit :=
  for_each callbacks (fun _ callback => call_set_model callback) tt.

Definition hook_fn (h : Hook) (callback : Callback)
  : Log -> Reach -> Log * Touch :=
  match h with
  | OnTrainBegin => on_train_begin callback
  | OnEpochBegin epoch => on_epoch_begin callback epoch
  | OnEpochEnd epoch => on_epoch_end callback epoch
  | OnTrainEnd => on_train_end callback
  end.

(** One hook call: the callback receives the shared [logs] dict and may
    change it in place. *)
Definition call_hook (h : Hook) (callback : Callback) (logs : Log) : M Log :=
  r <- gets reach ;;
  let '(logs', t) := hook_fn h callback logs r in
  touch t ;;
  emit (EvHook callback h logs logs') ;;
  ret logs'.

(** [for callback in callbacks: callback.<hook>(..., logs)]. *)
Definition call_hooks (h : Hook) (callbacks : list Callback) (logs : Log)
  : M Log :=
  for_each callbacks (fun logs callback => call_hook h callback logs) logs.

(** Lines 103-108 of [fit]: both epoch runs and the two dict stores. *)
Definition epoch_losses (train_dataset : list Batch) (train_num : Z)
    (val_dataset : list Batch) (val_num : Z) (logs : Log) : M Log :=
  train_loss <- _distributed_epoch train_dataset true train_num ;;
  val_loss <- _distributed_epoch val_dataset false val_num ;;
  let logs := <["loss" := train_loss]> logs in
  let logs := <["val_loss" := val_loss]> logs in
  ret logs.

(** The body of the epoch loop of [fit]. *)
Definition fit_epoch (callbacks : list Callback)
    (train_dataset : list Batch) (train_num : Z)
    (val_dataset : list Batch) (val_num : Z) (logs : Log) (epoch : Z) : M Log :=
  logs <- call_hooks (OnEpochBegin epoch) callbacks logs ;;
  logs <- epoch_losses train_dataset train_num val_dataset val_num logs ;;
  call_hooks (OnEpochEnd epoch) callbacks logs.

(** Lines 92-95 of [fit]: the arguments are stored on the model. *)
Definition store_training_state (writer' : option Writer)
    (use_ema' use_adv' : bool) (adv_config' : AdvConfig) : M unit :=
  setattr (AssignWriter writer') ;;
  setattr (AssignUseEma use_ema') ;;
  setattr (AssignUseAdv use_adv') ;;
  setattr (AssignAdvConfig adv_config').

(** Lines 96-113 of [fit]: callbacks are bound, then the hooks and the
    epochs run on one [logs] dict. *)
Definition run_protocol (epochs : Z) (callbacks : list Callback)
    (train_dataset : list Batch) (train_num : Z)
    (val_dataset : list Batch) (val_num : Z) : M unit :=
  _configure_callbacks callbacks ;;
  let logs : Log := ∅ in
  logs <- call_hooks OnTrainBegin callbacks logs ;;
  logs <- for_each (range epochs)
            (fit_epoch callbacks train_dataset train_num val_dataset val_num)
            logs ;;
  call_hooks OnTrainEnd callbacks logs ;;
  ret tt.

Definition fit (epochs : Z) (callbacks : list Callback)
    (train_dataset : list Batch) (train_num : Z)
    (val_dataset : list Batch) (val_num : Z)
    (writer' : option Writer) (use_ema' use_adv' : bool)
    (adv_config' : AdvConfig) : M unit :=
  store_training_state writer' use_ema' use_adv' adv_config' ;;
  run_protocol epochs callbacks train_dataset train_num val_dataset val_num.

End Model.

(** ** Reading a run *)

Section Observations.
Context `{B : Backend}.

(** The training state as [fit] leaves it after its first four lines:
    every attribute is assigned. *)
Definition configured (w : World) : Prop :=
  is_Some (writer (state w)) /\ is_Some (use_ema (state w)) /\
  is_Some (use_adv (state w)) /\ is_Some (adv_config (state w)).

(** The world after the events [seg], nothing else changed. *)
Definition logged (w : World) (seg : list Event) : World :=
  {| trainable_variables := trainable_variables w;
     optimizer := optimizer w;
     state := state w;
     ext := ext w;
     trace := trace w ++ seg |}.

(** The per-output loss at position [i], when all three sequences reach it. *)
Definition output_loss (y_trues : list Target) (y_preds : list Pred)
    (i : nat) : option scalar :=
  match y_trues !! i, y_preds !! i, loss !! i with
  | Some y_true, Some y_pred, Some loss_object => Some (loss_object y_true y_pred)
  | _, _, _ => None
  end.

(** The batches handed to the replicas, in order, with the phase flag. *)
Definition run_of (ev : Event) : option (bool * Batch) :=
  match ev with
  | EvRun training batch => Some (training, batch)
  | _ => None
  end.

Definition dispatched (tr : list Event) : list (bool * Batch) := omap run_of tr.

(** The reduced loss of each batch, in order. *)
Definition reduction_of (ev : Event) : option scalar :=
  match ev with
  | EvReduce _ reduced => Some reduced
  | _ => None
  end.

Definition reductions (tr : list Event) : list scalar := omap reduction_of tr.

(** The gradients handed to the optimizer, in order. *)
Definition applied_of (ev : Event) : option Grads :=
  match ev with
  | EvApplyGradients gradients => Some gradients
  | _ => None
  end.

Definition applied (tr : list Event) : list Grads := omap applied_of tr.

(** The moving-average updates: decay, debiasing flag, averaged variables. *)
Definition ema_of (ev : Event) : option (R * bool * Params) :=
  match ev with
  | EvEmaApply decay zero_debias variables => Some (decay, zero_debias, variables)
  | _ => None
  end.

Definition ema_updates (tr : list Event) : list (R * bool * Params) :=
  omap ema_of tr.

(** The image summaries written, in order. *)
Definition summary_of (ev : Event) : option (Writer * Image * Z) :=
  match ev with
  | EvSummaryImage handle images max_outputs => Some (handle, images, max_outputs)
  | _ => None
  end.

Definition summaries (tr : list Event) : list (Writer * Image * Z) :=
  omap summary_of tr.

(** The progress lines printed: batch count and running mean. *)
Definition progress_of (ev : Event) : option (R * scalar) :=
  match ev with
  | EvPrint num_batches mean => Some (num_batches, mean)
  | _ => None
  end.

Definition progress (tr : list Event) : list (R * scalar) := omap progress_of tr.

(** The events inside a step: tapes and moving-average updates. *)
Definition inner_event (ev : Event) : Prop :=
  match ev with
  | EvGradientTape _ | EvEmaApply _ _ _ => True
  | _ => False
  end.

(** Parameters and optimizer state are the same in both worlds. *)
Definition same_model (w w' : World) : Prop :=
  trainable_variables w' = trainable_variables w /\ optimizer w' = optimizer w.

(** *** The protocol of the orchestrator *)

(** A call of the orchestrator: a method of a callback, or an epoch run. *)
Inductive Call : Type :=
| CSetModel (callback : Callback)
| CHook (h : Hook) (callback : Callback)
| CEpoch (training : bool).

Definition call_of (ev : Event) : option Call :=
  match ev with
  | EvSetModel callback => Some (CSetModel callback)
  | EvHook callback h _ _ => Some (CHook h callback)
  | EvEpochResult training _ => Some (CEpoch training)
  | _ => None
  end.

Definition calls (tr : list Event) : list Call := omap call_of tr.

(** The epoch indices [0, epochs). *)
Definition epoch_indices (epochs : Z) : list Z :=
  Z.of_nat <$> seq 0 (Z.to_nat epochs).

(** The calls of one epoch, as the specification lists them. *)
Definition epoch_calls (callbacks : list Callback) (epoch : Z) : list Call :=
  (CHook (OnEpochBegin epoch) <$> callbacks) ++
  [CEpoch true; CEpoch false] ++
  (CHook (OnEpochEnd epoch) <$> callbacks).

(** The protocol of the specification: every group of calls goes over the
    callbacks in list order. *)
Definition protocol_calls (callbacks : list Callback) (epochs : Z)
  : list Call :=
  (CSetModel <$> callbacks) ++
  (CHook OnTrainBegin <$> callbacks) ++
  concat (epoch_calls callbacks <$> epoch_indices epochs) ++
  (CHook OnTrainEnd <$> callbacks).

(** The method of the callback contract a hook stands for. *)
Definition method (h : Hook) (callback : Callback) (logs : Log) (r : Reach)
  : Log * Touch :=
  match h with
  | OnTrainBegin => on_train_begin callback logs r
  | OnEpochBegin epoch => on_epoch_begin callback epoch logs r
  | OnEpochEnd epoch => on_epoch_end callback epoch logs r
  | OnTrainEnd => on_train_end callback logs r
  end.

(** The world after a callback method left [t] behind, the call being
    recorded as [ev]. *)
Definition landed (w : World) (t : Touch) (ev : Event) : World :=
  {| trainable_variables := new_variables t;
     optimizer := new_optimizer t;
     state := foldl assign (state w) (assignments t);
     ext := new_own_state t;
     trace := trace w ++ [ev] |}.

(** What one call of the protocol does to the log and to the world: a
    callback method is applied to the log and to what the callback reaches
    at that moment; an epoch run stores its result in the log. *)
Definition perform (train_dataset : list Batch) (train_num : Z)
    (val_dataset : list Batch) (val_num : Z) (logs : Log) (c : Call)
  : M Log :=
  match c with
  | CSetModel callback =>
      fun w =>
        (Ret logs,
         landed w (set_model callback (reach w)) (EvSetModel callback))
  | CHook h callback =>
      fun w =>
        let result := method h callback logs (reach w) in
        (Ret (fst result),
         landed w (snd result) (EvHook callback h logs (fst result)))
  | CEpoch true =>
      train_loss <- _distributed_epoch train_dataset true train_num ;;
      ret (<["loss" := train_loss]> logs)
  | CEpoch false =>
      val_loss <- _distributed_epoch val_dataset false val_num ;;
      ret (<["val_loss" := val_loss]> logs)
  end.

(** The calls are made one after the other, on one log. *)
Definition enact (train_dataset : list Batch) (train_num : Z)
    (val_dataset : list Batch) (val_num : Z) (cs : list Call) (logs : Log)
  : M Log :=
  for_each cs (perform train_dataset train_num val_dataset val_num) logs.

(** *** The log *)

(** What the callbacks are handed and leave, between the results of the
    epoch runs. *)
Inductive View : Type :=
| VHook (callback : Callback) (h : Hook) (handed returned : Log)
| VEpoch (training : bool) (mean_loss : scalar).

Definition view_of (ev : Event) : option View :=
  match ev with
  | EvHook callback h logs logs' => Some (VHook callback h logs logs')
  | EvEpochResult training r => Some (VEpoch training r)
  | _ => None
  end.

Definition view (tr : list Event) : list View := omap view_of tr.

(** One shared log: every hook is handed the log exactly as the hook
    before it left it, and between two hooks the log only changes by the
    results of the epoch runs being stored under ["loss"] and
    ["val_loss"]. *)
Fixpoint shared_log (current : Log) (vs : list View) : Prop :=
  match vs with
  | [] => True
  | VHook _ _ handed returned :: vs' =>
      handed = current /\ shared_log returned vs'
  | VEpoch true r :: vs' => shared_log (<["loss" := r]> current) vs'
  | VEpoch false r :: vs' => shared_log (<["val_loss" := r]> current) vs'
  end.

(** The log each callback leaves is the one its method returned. *)
Definition genuine (v : View) : Prop :=
  match v with
  | VHook callback h handed returned =>
      exists r, returned = fst (method h callback handed r)
  | VEpoch _ _ => True
  end.

(** The logs handed to [on_train_begin], in order. *)
Definition train_begin_logs (tr : list Event) : list Log :=
  omap (fun v => match v with
                 | VHook _ OnTrainBegin logs _ => Some logs
                 | _ => None
                 end) (view tr).

(** The logs handed to [on_epoch_end], in order, with the epoch index. *)
Definition epoch_end_logs (tr : list Event) : list (Z * Log) :=
  omap (fun v => match v with
                 | VHook _ (OnEpochEnd epoch) logs _ => Some (epoch, logs)
                 | _ => None
                 end) (view tr).

(** A callback whose hook [h] only reads the log. *)
Definition reads_log_in (h : Hook) (callback : Callback) : Prop :=
  forall logs r, fst (method h callback logs r) = logs.

(** A callback that only reads the log, in every hook. *)
Definition reads_log (callback : Callback) : Prop :=
  forall h, reads_log_in h callback.

(** A callback that assigns no attribute of the model. *)
Definition keeps_attributes (callback : Callback) : Prop :=
  (forall r, assignments (set_model callback r) = []) /\
  (forall h logs r, assignments (snd (method h callback logs r)) = []).

(** [t] leaves the variables and the optimizer state as [r] shows them. *)
Definition kept (r : Reach) (t : Touch) : Prop :=
  new_variables t = model_variables r /\ new_optimizer t = model_optimizer r.

(** A callback that changes neither the variables nor the optimizer state
    of the model. *)
Definition keeps_model (callback : Callback) : Prop :=
  (forall r, kept r (set_model callback r)) /\
  (forall h logs r, kept r (snd (method h callback logs r))).

Definition loss_keys : gset string := {[ "loss"; "val_loss" ]}.

(** The training state after lines 92-95 of [fit]. *)
Definition stored (writer' : option Writer) (use_ema' use_adv' : bool)
    (adv_config' : AdvConfig) : TrainingState :=
  {| writer := Some writer'; use_ema := Some use_ema';
     use_adv := Some use_adv'; adv_config := Some adv_config' |}.

(** The training state of a model on which no attribute was assigned. *)
Definition unset : TrainingState :=
  {| writer := None; use_ema := None; use_adv := None; adv_config := None |}.

Definition with_state (w : World) (s : TrainingState) : World :=
  {| trainable_variables := trainable_variables w;
     optimizer := optimizer w;
     state := s;
     ext := ext w;
     trace := trace w |}.

(** The world with [self.use_ema] assigned. *)
Definition with_use_ema (w : World) (ema : bool) : World :=
  with_state w
    {| writer := writer (state w); use_ema := Some ema;
       use_adv := use_adv (state w); adv_config := adv_config (state w) |}.

(** The world with [self.use_adv] assigned. *)
Definition with_use_adv (w : World) (adv : bool) : World :=
  with_state w
    {| writer := writer (state w); use_ema := use_ema (state w);
       use_adv := Some adv; adv_config := adv_config (state w) |}.

(** *** The epoch, as the specification describes it *)

(** The sum of the per-output losses, paired positionally. *)
Definition paired_losses (y_trues : list Target) (y_preds : list Pred)
  : list scalar :=
  omap (output_loss y_trues y_preds)
       (seq 0 (length y_trues `min` (length y_preds `min` length loss))).

Definition base_loss (training : bool) (p : Params) (shard : Batch) : scalar :=
  ssum (paired_losses (snd shard) (call_model p (fst shard) training)).

(** The loss of one step on one replica, at the variables [p]: the base
    loss of the predictions in inference mode (validation), or of the
    predictions in training mode, plus [multiplier] times the adversarial
    loss when adversarial training is on (training). *)
Definition step_loss (step adv : bool) (cfg : AdvConfig) (p : Params)
    (shard : Batch) : scalar :=
  if step then
    let base := base_loss true p shard in
    if adv then
      sadd base
        (smul (Fin (multiplier cfg))
           (adversarial_loss (fst shard) (snd shard) p
              (fun yt yp => _compute_total_loss yt yp None) base cfg))
    else base
  else base_loss false p shard.

(** The reduced loss of a batch: the sum over the replicas. *)
Definition reduced_loss (step adv : bool) (cfg : AdvConfig) (p : Params)
    (batch : Batch) : scalar :=
  ssum (step_loss step adv cfg p <$> per_replica batch).

(** What the tape of a training step on one replica recorded. *)
Definition shard_objective (adv : bool) (cfg : AdvConfig) (shard : Batch)
  : Params -> outcome scalar :=
  if adv then adversarial_objective cfg (fst shard) (snd shard)
  else labeled_objective (fst shard) (snd shard).

(** The one gradient applied for a batch: the sum over the replicas of
    the gradients they computed at the same variables [p]. *)
Definition merged_gradient (adv : bool) (cfg : AdvConfig) (p : Params)
    (batch : Batch) : Grads :=
  all_reduce_sum
    ((fun shard => tape_gradient (shard_objective adv cfg shard) p)
       <$> per_replica batch).

(** Optimizer state and variables after a batch. *)
Definition after_batch (step adv : bool) (cfg : AdvConfig)
    (m : Opt * Params) (batch : Batch) : Opt * Params :=
  if step then apply_gradients m.1 (merged_gradient adv cfg m.2 batch) m.2
  else m.

Definition after_epoch (step adv : bool) (cfg : AdvConfig)
    (m : Opt * Params) (dataset : list Batch) : Opt * Params :=
  foldl (after_batch step adv cfg) m dataset.

(** The reduced loss of every batch of an epoch, each at the variables
    the batches before it left. *)
Fixpoint batch_losses (step adv : bool) (cfg : AdvConfig) (m : Opt * Params)
    (dataset : list Batch) : list scalar :=
  match dataset with
  | [] => []
  | batch :: rest =>
      reduced_loss step adv cfg m.2 batch ::
      batch_losses step adv cfg (after_batch step adv cfg m batch) rest
  end.

(** The gradient applied for every batch of a training epoch. *)
Fixpoint batch_gradients (adv : bool) (cfg : AdvConfig) (m : Opt * Params)
    (dataset : list Batch) : list Grads :=
  match dataset with
  | [] => []
  | batch :: rest =>
      merged_gradient adv cfg m.2 batch ::
      batch_gradients adv cfg (after_batch true adv cfg m batch) rest
  end.

(** What the events [seg] of the batches of an epoch show, for an epoch
    that starts from optimizer state and variables [m] with the running
    total [total_loss] and the running count [num_batches]. *)
Definition epoch_reading (step adv : bool) (cfg : AdvConfig)
    (wr : option Writer) (m : Opt * Params) (dataset : list Batch)
    (total_loss : scalar) (num_batches : R) (seg : list Event) : Prop :=
  let ls := batch_losses step adv cfg m dataset in
  dispatched seg = (fun batch => (step, batch)) <$> dataset /\
  reductions seg = ls /\
  progress seg =
    (fun k => ((num_batches + INR k)%R,
               sdiv (sadd total_loss (ssum (take k ls))) (num_batches + INR k)))
      <$> seq 1 (length dataset) /\
  summaries seg =
    match wr with
    | Some handle =>
        (fun batch => (handle, cast_uint8 (scale_image (fst batch) 255), 8%Z))
          <$> dataset
    | None => []
    end /\
  applied seg = (if step then batch_gradients adv cfg m dataset else []) /\
  calls seg = [] /\ view seg = [].

(** The dispatches of one epoch of [fit]: the training batches, then the
    validation batches. *)
Definition epoch_runs (train_dataset val_dataset : list Batch)
  : list (bool * Batch) :=
  ((fun batch => (true, batch)) <$> train_dataset) ++
  ((fun batch => (false, batch)) <$> val_dataset).

(** *** The calls of a run, one after the other *)

Section Enacted.
Variables train_dataset val_dataset : list Batch.

(** [performed c logs w logs' w' seg]: the call [c], made on the log
    [logs] in the world [w], left the log [logs'] and the world [w'] and
    appended [seg] to the trace. *)
Inductive performed : Call -> Log -> World -> Log -> World -> list Event -> Prop :=
| performed_set_model (callback : Callback) (logs : Log) (w : World) :
    performed (CSetModel callback) logs w
      logs
      (landed w (set_model callback (reach w)) (EvSetModel callback))
      [EvSetModel callback]
| performed_hook (h : Hook) (callback : Callback) (logs : Log) (w : World) :
    performed (CHook h callback) logs w
      (fst (method h callback logs (reach w)))
      (landed w (snd (method h callback logs (reach w)))
         (EvHook callback h logs (fst (method h callback logs (reach w)))))
      [EvHook callback h logs (fst (method h callback logs (reach w)))]
| performed_epoch (training : bool) (logs : Log) (w w' : World)
    (body : list Event) (mean : scalar) :
    state w' = state w -> ext w' = ext w ->
    trace w' = trace w ++ body ++ [EvEpochResult training mean] ->
    calls body = [] -> view body = [] ->
    dispatched body =
      (fun batch => (training, batch))
        <$> (if training then train_dataset else val_dataset) ->
    length (applied body) =
      (if training then length train_dataset else 0%nat) ->
    (applied body = [] -> same_model w w') ->
    performed (CEpoch training) logs w
      (<[(if training then "loss" else "val_loss") := mean]> logs) w'
      (body ++ [EvEpochResult training mean]).

Inductive enacted : list Call -> Log -> World -> Log -> World -> list Event -> Prop :=
| enacted_nil (logs : Log) (w : World) : enacted [] logs w logs w []
| enacted_cons (c : Call) (cs : list Call) (logs : Log) (w : World)
    (logs1 : Log) (w1 : World) (seg1 : list Event)
    (logs2 : Log) (w2 : World) (seg2 : list Event) :
    performed c logs w logs1 w1 seg1 ->
    enacted cs logs1 w1 logs2 w2 seg2 ->
    enacted (c :: cs) logs w logs2 w2 (seg1 ++ seg2).

End Enacted.

(** What a list of calls dispatches and how many epochs it trains. *)
Definition call_runs (train_dataset val_dataset : list Batch) (c : Call)
  : list (bool * Batch) :=
  match c with
  | CEpoch true => (fun batch => (true, batch)) <$> train_dataset
  | CEpoch false => (fun batch => (false, batch)) <$> val_dataset
  | _ => []
  end.

Definition trains (c : Call) : bool :=
  match c with
  | CEpoch true => true
  | _ => false
  end.

Definition caller_of (c : Call) : option Callback :=
  match c with
  | CSetModel callback | CHook _ callback => Some callback
  | CEpoch _ => None
  end.

End Observations.

(** ** A two-output toy model on two replicas *)

Definition squared_error (y p : R) : scalar := Fin ((y - p) * (y - p)).

(** The optimizer state counts the updates; every replica sees the whole
    batch; the gradient is a stand-in. *)
Definition toy : Backend := {|
  Params := R; Opt := nat; Grads := R;
  Image := R; Target := R; Pred := R;
  Writer := unit; SampleWeights := unit; Ext := list (string * Log);
  call_model := fun p x _ => [(p * x)%R; (p * x)%R];
  loss := [squared_error; squared_error];
  adversarial_loss := fun _ _ _ _ _ _ => Fin 0;
  tape_gradient := fun _ _ => 1%R;
  apply_gradients := fun o g p => (S o, (p - g)%R);
  scale_image := fun x c => (x * c)%R;
  cast_uint8 := fun x => x;
  per_replica := fun batch => [batch; batch];
  replicas_exist := fun batch E => nil_cons (eq_sym E);
  all_reduce_sum := fun gs => foldr Rplus 0%R gs
|}.

Definition toy_world : @World toy :=
  @Build_World toy 1%R 0%nat (@unset toy) [] [].

(** One batch: an image and the targets of the two outputs. *)
Definition toy_batch : @Batch toy := (1%R, [1%R; 2%R]).

(** What a callback method leaves when it does not touch the model. *)
Definition untouched (r : @Reach toy) (x : list (string * Log)) : @Touch toy :=
  @Build_Touch toy (model_variables r) (model_optimizer r) [] x.

(** A callback that leaves the model and the log alone, and notes under
    its name every log it is handed. *)
Definition recorder (name : string) : @Callback toy :=
  @Build_Callback toy
    (fun r => untouched r (own_state r))
    (fun logs r => (logs, untouched r (own_state r ++ [(name, logs)])))
    (fun _ logs r => (logs, untouched r (own_state r ++ [(name, logs)])))
    (fun _ logs r => (logs, untouched r (own_state r ++ [(name, logs)])))
    (fun logs r => (logs, untouched r (own_state r ++ [(name, logs)]))).

(** A callback that, like a learning-rate logger, writes an entry of its
    own into the log at the end of every epoch. *)
Definition lr_logger : @Callback toy :=
  @Build_Callback toy
    (fun r => untouched r (own_state r))
    (fun logs r => (logs, untouched r (own_state r)))
    (fun _ logs r => (logs, untouched r (own_state r)))
    (fun _ logs r => (<["lr" := Fin 0.1]> logs, untouched r (own_state r)))
    (fun logs r => (logs, untouched r (own_state r))).

(** A callback that writes an entry into the log when training begins. *)
Definition greeter : @Callback toy :=
  @Build_Callback toy
    (fun r => untouched r (own_state r))
    (fun logs r => (<["started" := Fin 1]> logs, untouched r (own_state r)))
    (fun _ logs r => (logs, untouched r (own_state r)))
    (fun _ logs r => (logs, untouched r (own_state r)))
    (fun logs r => (logs, untouched r (own_state r))).

(** The toy world inside a fit called with the default arguments. *)
Definition toy_fitting : @World toy :=
  with_state toy_world (stored None false false default_adv_config).

(** * Properties *)

(** ** Scalars *)

Lemma sdiv_zero (x : scalar) : sdiv x 0 = NonFin.
Proof.
  unfold sdiv. destruct x as [a|]; [|done].
  destruct (Req_dec_T 0 0) as [_|ne]; [done | by destruct ne].
Qed.

Lemma sdiv_nonzero (a d : R) : d <> 0%R -> sdiv (Fin a) d = Fin (a / d).
Proof.
  intros nz. unfold sdiv. destruct (Req_dec_T d 0) as [e|_]; [by destruct nz | done].
Qed.

Lemma sadd_comm (x y : scalar) : sadd x y = sadd y x.
Proof. destruct x, y; simpl; try done. f_equal. lra. Qed.

Lemma sadd_assoc (x y z : scalar) : sadd x (sadd y z) = sadd (sadd x y) z.
Proof. destruct x, y, z; simpl; try done. f_equal. lra. Qed.

Lemma sadd_zero_l (x : scalar) : sadd (Fin 0) x = x.
Proof. destruct x; simpl; [f_equal; lra | done]. Qed.

(** Accumulating from the left, as the loops of the program do, gives
    the sum. *)
Lemma fold_left_sadd (l : list scalar) (acc : scalar) :
  fold_left sadd l acc = sadd acc (ssum l).
Proof.
  revert acc. induction l as [|x l IH]; intros acc; simpl.
  - destruct acc; simpl; [f_equal; lra | done].
  - rewrite IH. by rewrite sadd_assoc.
Qed.

(** ** The learning-rate schedule *)

Module ScheduleFacts.
Import CosineLearningRateWithLinearWarmup.
Local Open Scope R_scope.

Lemma linear_warmup_finite (self : t) (s : R) :
  warmup_steps self <> 0 ->
  linear_warmup self s =
    Fin (warmup_lr self + s / warmup_steps self * (lr self - warmup_lr self)).
Proof.
  intros nz. unfold linear_warmup. by rewrite sdiv_nonzero.
Qed.

Lemma linear_warmup_no_warmup (self : t) (s : R) :
  warmup_steps self = 0 -> linear_warmup self s = NonFin.
Proof.
  intros z. unfold linear_warmup. rewrite z, sdiv_zero. done.
Qed.

Lemma consine_lr_at_boundary (self : t) :
  warmup_steps self < total_steps self ->
  consine_lr self (warmup_steps self) = Fin (lr self).
Proof.
  intros lt. unfold consine_lr.
  rewrite sdiv_nonzero by lra. simpl.
  replace (PI * (warmup_steps self - warmup_steps self) /
           (total_steps self - warmup_steps self)) with 0
    by (field; lra).
  rewrite cos_0, sdiv_nonzero by lra.
  f_equal. field.
Qed.

(** C7, as stated, fails without warmup: with [warmup_steps = 0] (and
    [total_steps = 1], [lr = 1], [warmup_lr = 0]) the premise holds and
    the linear formula at the boundary divides zero by zero. *)
Lemma schedule_boundary_counterexample :
  let self := __init__ 1 1 0 0 in
  warmup_steps self < total_steps self /\
  linear_warmup self (warmup_steps self) = NonFin /\
  linear_warmup self (warmup_steps self) <> Fin (lr self) /\
  linear_warmup self (warmup_steps self)
    <> consine_lr self (warmup_steps self).
Proof.
  simpl. split; [lra|].
  assert (E : linear_warmup (__init__ 1 1 0 0) 0 = NonFin)
    by (by apply linear_warmup_no_warmup).
  split; [exact E|]. rewrite E. split; [done|].
  pose proof (consine_lr_at_boundary (__init__ 1 1 0 0)) as C.
  simpl in C. rewrite C by lra. done.
Qed.

(** C7 (amended): when [warmup_steps < total_steps] and [warmup_steps]
    is not zero, both pieces of the schedule take the value [lr] at
    [global_step = warmup_steps], and so does the schedule itself, which
    selects the cosine piece there. *)
Theorem schedule_pieces_meet (self : t) :
  warmup_steps self < total_steps self ->
  warmup_steps self <> 0 ->
  linear_warmup self (warmup_steps self) = Fin (lr self) /\
  consine_lr self (warmup_steps self) = Fin (lr self) /\
  __call__ self (warmup_steps self) = consine_lr self (warmup_steps self).
Proof.
  intros lt nz. split; [|split].
  - rewrite linear_warmup_finite by done. f_equal. field. done.
  - by apply consine_lr_at_boundary.
  - unfold __call__.
    destruct (Rlt_dec (warmup_steps self) (warmup_steps self)); [lra | done].
Qed.

Lemma schedule_pieces_meet_witness :
  let self := __init__ 1 10 0 2 in
  linear_warmup self 2 = Fin 1 /\ consine_lr self 2 = Fin 1 /\
  __call__ self 2 = consine_lr self 2.
Proof.
  apply (schedule_pieces_meet (__init__ 1 10 0 2)); simpl; lra.
Defined.

(** C9: with [warmup_lr < lr] and [warmup_steps > 0] the schedule is
    non-decreasing on [0 <= global_step < warmup_steps]. *)
Theorem warmup_monotone (self : t) (s1 s2 : R) :
  warmup_lr self < lr self ->
  0 < warmup_steps self ->
  0 <= s1 -> s1 <= s2 -> s2 < warmup_steps self ->
  sle (__call__ self s1) (__call__ self s2).
Proof.
  intros inc pos nonneg le below. unfold __call__.
  destruct (Rlt_dec s1 (warmup_steps self)) as [_|n]; [|lra].
  destruct (Rlt_dec s2 (warmup_steps self)) as [_|n]; [|lra].
  rewrite !linear_warmup_finite by lra. simpl.
  apply Rplus_le_compat_l, Rmult_le_compat_r; [lra|].
  apply Rmult_le_compat_r; [|done].
  apply Rlt_le, Rinv_0_lt_compat. done.
Qed.

Lemma warmup_monotone_witness :
  sle (__call__ (__init__ 1 10 0 4) 1) (__call__ (__init__ 1 10 0 4) 3).
Proof.
  apply (warmup_monotone (__init__ 1 10 0 4) 1 3); simpl; lra.
Defined.

End ScheduleFacts.

(** ** The loss aggregator *)

Section AggregatorFacts.
Context `{B : Backend}.

Lemma fold_left_zip3 (l : list (Target * Pred * (Target -> Pred -> scalar)))
    (acc : scalar) :
  fold_left (fun acc '(y_true, y_pred, loss_object) =>
               sadd acc (loss_object y_true y_pred)) l acc =
  fold_left sadd ((fun '(y_true, y_pred, loss_object) =>
                     loss_object y_true y_pred) <$> l) acc.
Proof.
  revert acc. induction l as [|[[yt yp] lo] l IH]; intros acc; simpl; [done|].
  apply IH.
Qed.

Lemma omap_seq_S {A} (f : nat -> option A) (n : nat) :
  omap f (seq 1 n) = omap (fun i => f (S i)) (seq 0 n).
Proof.
  rewrite <- fmap_S_seq. generalize (seq 0 n) as l.
  induction l as [|i l IH]; csimpl; [done|]. by rewrite IH.
Qed.

(** [zip] pairs the positions below the shortest length, and only those. *)
Lemma zip3_positions {X Y Z' A} (f : X -> Y -> Z' -> A)
    (xs : list X) (ys : list Y) (zs : list Z') :
  (fun '(x, y, z) => f x y z) <$> zip3 xs ys zs =
  omap (fun i => match xs !! i, ys !! i, zs !! i with
                 | Some x, Some y, Some z => Some (f x y z)
                 | _, _, _ => None
                 end)
       (seq 0 (length xs `min` (length ys `min` length zs))).
Proof.
  revert ys zs. induction xs as [|x xs IH]; intros ys zs; [done|].
  destruct ys as [|y ys]; [done|].
  destruct zs as [|z zs]; [done|].
  cbn [zip3 fmap list_fmap length]. rewrite IH.
  replace (S (length xs) `min` (S (length ys) `min` S (length zs)))
    with (S (length xs `min` (length ys `min` length zs))) by lia.
  rewrite <- cons_seq. csimpl. rewrite omap_seq_S. done.
Qed.

Lemma length_zip3 {X Y Z'} (xs : list X) (ys : list Y) (zs : list Z') :
  length (zip3 xs ys zs) = length xs `min` (length ys `min` length zs).
Proof.
  revert ys zs. induction xs as [|x xs IH]; intros ys zs; [done|].
  destruct ys as [|y ys]; [done|].
  destruct zs as [|z zs]; [simpl; lia|].
  simpl. rewrite IH. lia.
Qed.

(** C1 (amended): the aggregator makes no length check and raises no
    length-mismatch error. It pairs targets, predictions and loss objects
    positionally up to the shortest of the three sequences and returns the
    sum of the per-output losses of exactly those positions. *)
Theorem compute_total_loss_pairs_shortest
    (y_trues : list Target) (y_preds : list Pred)
    (sample_weights : option SampleWeights) :
  let n := length y_trues `min` (length y_preds `min` length loss) in
  let paired := omap (output_loss y_trues y_preds) (seq 0 n) in
  length paired = n /\
  _compute_total_loss y_trues y_preds sample_weights = Ret (ssum paired) /\
  _compute_total_loss y_trues y_preds sample_weights <> Raise LengthMismatch.
Proof.
  intros n paired.
  assert (E : paired = (fun '(yt, yp, lo) => lo yt yp) <$> zip3 y_trues y_preds loss).
  { subst paired n. unfold output_loss.
    by rewrite (zip3_positions (fun yt yp (lo : Target -> Pred -> scalar) => lo yt yp)). }
  split; [|split].
  - rewrite E, length_fmap. apply length_zip3.
  - unfold _compute_total_loss.
    rewrite fold_left_zip3, fold_left_sadd, sadd_zero_l, E. done.
  - done.
Qed.

End AggregatorFacts.

(** C1, as stated, fails: the toy model has two loss objects, and with two
    targets and three predictions the aggregator returns the sum of the two
    losses of the first two positions, [(1-0)^2 + (2-0)^2 = 5]. *)
Lemma compute_total_loss_no_length_error :
  length [1%R; 2%R] = 2%nat /\ length [0%R; 0%R; 0%R] = 3%nat /\
  length (@loss toy) = 2%nat /\
  @_compute_total_loss toy [1%R; 2%R] [0%R; 0%R; 0%R] None = Ret (Fin 5) /\
  @_compute_total_loss toy [1%R; 2%R] [0%R; 0%R; 0%R] None
    <> Raise LengthMismatch.
Proof.
  repeat split; try done.
  unfold _compute_total_loss. simpl. unfold squared_error. simpl.
  do 2 f_equal. lra.
Qed.

(** ** Running the embedding *)

Section RunFacts.
Context `{B : Backend}.

Ltac run :=
  unfold bind, getattr, setattr, emit, gets, lift, ret, set_variables;
  cbn -[adversarial_objective labeled_objective _compute_total_loss
        step_loss reduced_loss sadd smul sdiv ssum].

Lemma logged_nil (w : World) : logged w [] = w.
Proof. destruct w. unfold logged. cbn. by rewrite app_nil_r. Qed.

Lemma logged_app (w : World) (seg1 seg2 : list Event) :
  logged (logged w seg1) seg2 = logged w (seg1 ++ seg2).
Proof. unfold logged. cbn. by rewrite <- app_assoc. Qed.

(** The aggregator returns the sum of the paired per-output losses. *)
Lemma compute_total_loss_value (y_trues : list Target) (y_preds : list Pred)
    (sample_weights : option SampleWeights) :
  _compute_total_loss y_trues y_preds sample_weights
    = Ret (ssum (paired_losses y_trues y_preds)).
Proof.
  unfold _compute_total_loss, paired_losses, output_loss.
  rewrite fold_left_zip3, fold_left_sadd, sadd_zero_l.
  by rewrite (zip3_positions
                (fun yt yp (lo : Target -> Pred -> scalar) => lo yt yp)).
Qed.

(** What the tape of a training step records evaluates to the loss of the
    step. *)
Lemma shard_objective_value (adv : bool) (cfg : AdvConfig) (shard : Batch)
    (p : Params) :
  shard_objective adv cfg shard p = Ret (step_loss true adv cfg p shard).
Proof.
  unfold shard_objective, step_loss, base_loss.
  destruct adv; unfold adversarial_objective, labeled_objective;
    by rewrite compute_total_loss_value.
Qed.

(** C8: whatever the batch and the world, the validation step returns
    the aggregated loss of the predictions made in inference mode at the
    current parameters, and leaves the whole world as it was: parameters,
    optimizer, training state, and a trace with no tape, no gradient
    application and no moving-average update. *)
Theorem val_step_only_evaluates (inputs : Batch) (w : World) :
  _val_step inputs w =
    (_compute_total_loss (snd inputs)
       (call_model (trainable_variables w) (fst inputs) false) None,
     w).
Proof. by destruct inputs as [images y_trues]. Qed.

(** *** The steps on a replica *)

Lemma train_step_in_replica (shard : Batch) (w : World)
    (adv ema : bool) (cfg : AdvConfig) :
  use_adv (state w) = Some adv ->
  adv_config (state w) = Some cfg ->
  use_ema (state w) = Some ema ->
  train_step_in InReplica shard w =
    (Ret (step_loss true adv cfg (trainable_variables w) shard,
          DistributedApply
            (tape_gradient (shard_objective adv cfg shard)
               (trainable_variables w)) ::
          (if ema then [AssignMovingAverage 0.9999 true] else [])),
     logged w (EvGradientTape WatchVariables ::
               (if adv then [EvGradientTape WatchImages] else []))).
Proof.
  intros Eadv Ecfg Eema. destruct shard as [images y_trues].
  pose proof (shard_objective_value adv cfg (images, y_trues)
                (trainable_variables w)) as V.
  unfold train_step_in, optimizer_apply_gradients, ema_apply. run.
  rewrite Eadv. destruct adv; run; rewrite ?Ecfg; run;
    cbn [shard_objective fst snd] in V; rewrite V; run;
    rewrite Eema; destruct ema; run; unfold logged; cbn [trace];
    by rewrite <- ?app_assoc.
Qed.

Lemma val_step_in_replica (shard : Batch) (w : World)
    (adv : bool) (cfg : AdvConfig) :
  val_step_in InReplica shard w =
    (Ret (step_loss false adv cfg (trainable_variables w) shard, []), w).
Proof.
  destruct shard as [images y_trues]. unfold val_step_in, _val_step. run.
  by rewrite compute_total_loss_value.
Qed.

Lemma run_replicas_training (shards : list Batch) (w : World)
    (adv ema : bool) (cfg : AdvConfig) :
  use_adv (state w) = Some adv ->
  adv_config (state w) = Some cfg ->
  use_ema (state w) = Some ema ->
  exists merge_calls seg,
    run_replicas train_step_in shards w =
      (Ret (step_loss true adv cfg (trainable_variables w) <$> shards,
            merge_calls),
       logged w seg) /\
    gradients_of merge_calls =
      (fun shard => tape_gradient (shard_objective adv cfg shard)
                      (trainable_variables w)) <$> shards /\
    averages_of merge_calls =
      (if ema then replicate (length shards) (0.9999%R, true) else []) /\
    Forall inner_event seg.
Proof.
  revert w. induction shards as [|shard rest IH]; intros w Eadv Ecfg Eema.
  - exists [], []. cbn. unfold ret. rewrite logged_nil.
    by destruct ema.
  - cbn [run_replicas]. unfold bind.
    rewrite (train_step_in_replica shard w adv ema cfg Eadv Ecfg Eema).
    set (seg1 := EvGradientTape WatchVariables ::
                 (if adv then [EvGradientTape WatchImages] else [])).
    destruct (IH (logged w seg1) Eadv Ecfg Eema)
      as (calls_rest & seg_rest & E & G & A & T).
    cbn [logged trainable_variables] in E, G. rewrite E, logged_app.
    eexists _, _. split; [reflexivity|]. cbn [fst snd].
    unfold gradients_of, averages_of in *. split; [|split].
    + csimpl. rewrite omap_app, G.
      by destruct ema.
    + csimpl. rewrite omap_app, A. by destruct ema.
    + apply Forall_app. split; [|done]. subst seg1.
      destruct adv; repeat constructor.
Qed.

Lemma run_replicas_validation (shards : list Batch) (w : World)
    (adv : bool) (cfg : AdvConfig) :
  run_replicas val_step_in shards w =
    (Ret (step_loss false adv cfg (trainable_variables w) <$> shards, []), w).
Proof.
  induction shards as [|shard rest IH]; [done|].
  cbn [run_replicas]. unfold bind.
  by rewrite (val_step_in_replica shard w adv cfg), IH.
Qed.

(** The merge of the calls the replicas of a training step made. *)
Lemma merge_training (merge_calls : list MergeCall) (w : World)
    (g : Grads) (gs : list Grads) (ema : bool) (n : nat) :
  gradients_of merge_calls = g :: gs ->
  averages_of merge_calls =
    (if ema then replicate (S n) (0.9999%R, true) else []) ->
  merge merge_calls w =
    (Ret tt,
     let gradients := all_reduce_sum (g :: gs) in
     let updated :=
       apply_gradients (optimizer w) gradients (trainable_variables w) in
     {| trainable_variables := updated.2;
        optimizer := updated.1;
        state := state w;
        ext := ext w;
        trace := trace w ++ EvApplyGradients gradients ::
                 (if ema then [EvEmaApply 0.9999 true updated.2] else []) |}).
Proof.
  intros G A. unfold merge. rewrite G, A. run.
  destruct (apply_gradients _ _ _) as [o' variables']. run.
  destruct ema; run; by rewrite <- ?app_assoc.
Qed.

(** Events inside a step show in none of the readings of a batch. *)
Lemma inner_quiet (seg : list Event) :
  Forall inner_event seg ->
  dispatched seg = [] /\ reductions seg = [] /\ progress seg = [] /\
  summaries seg = [] /\ applied seg = [] /\ calls seg = [] /\ view seg = [].
Proof.
  induction 1 as [|ev seg Hev _ (D & R & P & S & A & C & V)]; [done|].
  unfold dispatched, reductions, progress, summaries, applied, calls, view in *.
  destruct ev; try done; csimpl; by rewrite ?D, ?R, ?P, ?S, ?A, ?C, ?V.
Qed.

(** *** One batch of an epoch *)

Lemma epoch_batch_full (step : bool) (total_loss : scalar) (num_batches : R)
    (batch : Batch) (w : World) (wr : option Writer) (ema adv : bool)
    (cfg : AdvConfig) :
  writer (state w) = Some wr ->
  use_ema (state w) = Some ema ->
  use_adv (state w) = Some adv ->
  adv_config (state w) = Some cfg ->
  let reduced := reduced_loss step adv cfg (trainable_variables w) batch in
  exists seg w',
    epoch_batch step (total_loss, num_batches) batch w =
      (Ret (sadd total_loss reduced, (num_batches + 1)%R), w') /\
    trace w' = trace w ++ seg /\ state w' = state w /\ ext w' = ext w /\
    (optimizer w', trainable_variables w') =
      after_batch step adv cfg (optimizer w, trainable_variables w) batch /\
    dispatched seg = [(step, batch)] /\
    reductions seg = [reduced] /\
    progress seg =
      [((num_batches + 1)%R, sdiv (sadd total_loss reduced) (num_batches + 1))] /\
    summaries seg =
      match wr with
      | Some handle =>
          [(handle, cast_uint8 (scale_image (fst batch) 255), 8%Z)]
      | None => []
      end /\
    applied seg =
      (if step
       then [merged_gradient adv cfg (trainable_variables w) batch]
       else []) /\
    calls seg = [] /\ view seg = [].
Proof.
  intros Ewr Eema Eadv Ecfg reduced. subst reduced.
  unfold epoch_batch, experimental_run_v2, reduce_sum, reduced_loss. run.
  rewrite Ewr. destruct step.
  - destruct wr as [handle|]; run;
      match goal with
      | |- context [run_replicas train_step_in ?shards ?w1] =>
          destruct (run_replicas_training shards w1 adv ema cfg Eadv Ecfg Eema)
            as (merge_calls & seg & E & G & A & T)
      end;
      cbn [trainable_variables] in E, G; rewrite E; run;
      destruct (per_replica batch) as [|shard shards] eqn:Eshards;
      try (by destruct (replicas_exist batch));
      rewrite fmap_cons in G; cbn [length] in A;
      rewrite (merge_training _ _ _ _ ema (length shards) G A); run;
      destruct (inner_quiet seg T) as (D & R & P & S & Ap & C & V);
      unfold after_batch, merged_gradient; rewrite Eshards, fmap_cons;
      cbn [fst snd];
      destruct (apply_gradients _ _ _) as [o' variables'];
      eexists _, _; (split; [reflexivity|]); cbn [trace state ext optimizer
        trainable_variables logged fst snd];
      (split; [by rewrite <- ?app_assoc|]);
      (split; [done|]); (split; [done|]); (split; [done|]);
      unfold dispatched, reductions, progress, summaries, applied, calls,
        view in *;
      rewrite ?omap_app, ?D, ?R, ?P, ?S, ?Ap, ?C, ?V; csimpl;
      rewrite ?omap_app, ?D, ?R, ?P, ?S, ?Ap, ?C, ?V; csimpl;
      destruct ema; done.
  - destruct wr as [handle|]; run;
      rewrite (run_replicas_validation _ _ adv cfg); run;
      unfold merge; run;
      eexists _, _; (split; [reflexivity|]); cbn [trace state ext optimizer
        trainable_variables fst snd];
      (split; [by rewrite <- ?app_assoc|]); done.
Qed.

(** *** The loop over the batches *)

Lemma sadd_zero_r (x : scalar) : sadd x (Fin 0) = x.
Proof. by rewrite sadd_comm, sadd_zero_l. Qed.

Lemma progress_shift (total_loss reduced : scalar) (num_batches : R)
    (rest : list scalar) (m : nat) :
  ((num_batches + 1)%R, sdiv (sadd total_loss reduced) (num_batches + 1)) ::
  ((fun k => ((num_batches + 1 + INR k)%R,
              sdiv (sadd (sadd total_loss reduced) (ssum (take k rest)))
                   (num_batches + 1 + INR k))) <$> seq 1 m)
  = (fun k => ((num_batches + INR k)%R,
               sdiv (sadd total_loss (ssum (take k (reduced :: rest))))
                    (num_batches + INR k))) <$> seq 1 (S m).
Proof.
  rewrite <- cons_seq, fmap_cons, <- (fmap_S_seq 1 m), <- list_fmap_compose.
  f_equal.
  - cbn [take firstn ssum foldr INR]. by rewrite sadd_zero_r.
  - apply list_fmap_ext. intros i k _. unfold compose.
    rewrite S_INR. cbn [take firstn ssum foldr]. rewrite sadd_assoc.
    by replace (num_batches + (INR k + 1))%R
      with (num_batches + 1 + INR k)%R by lra.
Qed.

Lemma epoch_loop_full (step : bool) (dataset : list Batch)
    (total_loss : scalar) (num_batches : R) (w : World)
    (wr : option Writer) (ema adv : bool) (cfg : AdvConfig) :
  writer (state w) = Some wr ->
  use_ema (state w) = Some ema ->
  use_adv (state w) = Some adv ->
  adv_config (state w) = Some cfg ->
  let m := (optimizer w, trainable_variables w) in
  let ls := batch_losses step adv cfg m dataset in
  exists seg w',
    for_each dataset (epoch_batch step) (total_loss, num_batches) w =
      (Ret (sadd total_loss (ssum ls),
            (num_batches + INR (length dataset))%R), w') /\
    trace w' = trace w ++ seg /\ state w' = state w /\ ext w' = ext w /\
    (optimizer w', trainable_variables w') =
      after_epoch step adv cfg m dataset /\
    epoch_reading step adv cfg wr m dataset total_loss num_batches seg.
Proof.
  revert total_loss num_batches w.
  induction dataset as [|batch rest IH];
    intros total_loss num_batches w Ewr Eema Eadv Ecfg m ls; subst m ls.
  - exists [], w. cbn [for_each batch_losses ssum foldr length INR]. unfold ret.
    rewrite sadd_zero_r, Rplus_0_r, app_nil_r.
    repeat (split; [done|]). unfold epoch_reading. cbn.
    repeat (split; [done|]). split; [by destruct wr|].
    split; [by destruct step|]. done.
  - cbn [for_each]. unfold bind.
    destruct (epoch_batch_full step total_loss num_batches batch w wr ema adv
                cfg Ewr Eema Eadv Ecfg)
      as (seg1 & w1 & E1 & T1 & S1 & X1 & M1 & D1 & R1 & P1 & Sm1 & A1 & C1 & V1).
    rewrite E1.
    destruct (IH (sadd total_loss
                    (reduced_loss step adv cfg (trainable_variables w) batch))
                 (num_batches + 1)%R w1)
      as (seg2 & w2 & E2 & T2 & S2 & X2 & M2 & D2 & R2 & P2 & Sm2 & A2 & C2 & V2);
      try (by rewrite S1).
    rewrite M1 in E2, M2, R2, P2, A2.
    rewrite E2. exists (seg1 ++ seg2), w2.
    cbn [batch_losses ssum foldr length snd].
    split; [by rewrite S_INR, sadd_assoc, Rplus_assoc, (Rplus_comm 1)|].
    split; [by rewrite T2, T1, app_assoc|].
    split; [congruence|]. split; [congruence|]. split; [done|].
    unfold epoch_reading, dispatched, reductions, progress, summaries,
      applied, calls, view in *.
    cbn [batch_losses batch_gradients length snd].
    rewrite !omap_app, D1, D2, R1, R2, P1, P2, Sm1, Sm2, A1, A2, C1, C2, V1, V2.
    cbn [app]. rewrite progress_shift.
    repeat (split; [done|]). split; [by destruct wr|].
    split; [by destruct step|]. done.
Qed.

(** *** The epoch *)

Lemma distributed_epoch_full (dataset : list Batch) (step : bool) (num : Z)
    (w : World) (wr : option Writer) (ema adv : bool) (cfg : AdvConfig) :
  writer (state w) = Some wr ->
  use_ema (state w) = Some ema ->
  use_adv (state w) = Some adv ->
  adv_config (state w) = Some cfg ->
  let m := (optimizer w, trainable_variables w) in
  let mean :=
    sdiv (ssum (batch_losses step adv cfg m dataset)) (INR (length dataset)) in
  exists body w',
    _distributed_epoch dataset step num w = (Ret mean, w') /\
    trace w' = trace w ++ body ++ [EvEpochResult step mean] /\
    state w' = state w /\ ext w' = ext w /\
    (optimizer w', trainable_variables w') =
      after_epoch step adv cfg m dataset /\
    epoch_reading step adv cfg wr m dataset (Fin 0) 0 body.
Proof.
  intros Ewr Eema Eadv Ecfg m mean. subst m mean.
  destruct (epoch_loop_full step dataset (Fin 0) 0 w wr ema adv cfg
              Ewr Eema Eadv Ecfg)
    as (body & w1 & E & T & S & X & M & Rd).
  unfold _distributed_epoch, bind. rewrite E. run.
  rewrite sadd_zero_l, Rplus_0_l.
  exists body. eexists. split; [reflexivity|].
  cbn [trace state ext optimizer trainable_variables].
  split; [by rewrite T, <- app_assoc|]. done.
Qed.

Lemma configured_attributes (w : World) :
  configured w ->
  exists wr ema adv cfg,
    writer (state w) = Some wr /\ use_ema (state w) = Some ema /\
    use_adv (state w) = Some adv /\ adv_config (state w) = Some cfg.
Proof.
  intros ([wr Ewr] & [ema Eema] & [adv Eadv] & [cfg Ecfg]).
  by exists wr, ema, adv, cfg.
Qed.

Lemma configured_state (w w' : World) :
  state w' = state w -> configured w -> configured w'.
Proof. unfold configured. by intros ->. Qed.

(** An epoch over no batch at all: nothing is read or dispatched. *)
Lemma distributed_epoch_empty (step : bool) (num : Z) (w : World) :
  _distributed_epoch [] step num w =
    (Ret NonFin, snd (emit (EvEpochResult step NonFin) w)).
Proof.
  unfold _distributed_epoch. run. by rewrite (sdiv_zero (Fin 0)).
Qed.

Lemma length_batch_losses (step adv : bool) (cfg : AdvConfig)
    (m : Opt * Params) (dataset : list Batch) :
  length (batch_losses step adv cfg m dataset) = length dataset.
Proof.
  revert m. induction dataset as [|batch rest IH]; intros m; [done|].
  cbn [batch_losses length]. by rewrite IH.
Qed.

Lemma length_batch_gradients (adv : bool) (cfg : AdvConfig)
    (m : Opt * Params) (dataset : list Batch) :
  length (batch_gradients adv cfg m dataset) = length dataset.
Proof.
  revert m. induction dataset as [|batch rest IH]; intros m; [done|].
  cbn [batch_gradients length]. by rewrite IH.
Qed.

Lemma after_epoch_validation (adv : bool) (cfg : AdvConfig)
    (m : Opt * Params) (dataset : list Batch) :
  after_epoch false adv cfg m dataset = m.
Proof.
  unfold after_epoch. induction dataset as [|batch rest IH]; [done|].
  exact IH.
Qed.

(** The losses of a validation epoch are all taken at the variables the
    epoch starts from. *)
Lemma batch_losses_validation (adv : bool) (cfg : AdvConfig)
    (m : Opt * Params) (dataset : list Batch) :
  batch_losses false adv cfg m dataset =
    reduced_loss false adv cfg m.2 <$> dataset.
Proof.
  induction dataset as [|batch rest IH]; [done|].
  cbn [batch_losses after_batch]. by rewrite IH.
Qed.

Lemma sdiv_finite (x : scalar) (d : R) :
  is_finite (sdiv x d) <-> is_finite x /\ d <> 0%R.
Proof.
  unfold sdiv. destruct x as [a|]; simpl; [|tauto].
  destruct (Req_dec_T d 0); simpl; tauto.
Qed.

Lemma ssum_finite (l : list scalar) :
  is_finite (ssum l) <-> Forall is_finite l.
Proof.
  induction l as [|x l IH]; simpl; [by split|].
  rewrite Forall_cons, <- IH. destruct x, (ssum l); simpl; tauto.
Qed.

End RunFacts.

(** ** The orchestrator *)

Section OrchestratorFacts.
Context `{B : Backend}.

Lemma bind_ext {A C} (m m' : M A) (k k' : A -> M C) (w : World) :
  m w = m' w -> (forall a w1, k a w1 = k' a w1) -> bind m k w = bind m' k' w.
Proof.
  intros E K. unfold bind. rewrite E.
  destruct (m' w) as [[a|e] w1]; [apply K | done].
Qed.

Lemma bind_assoc {A C D} (m : M A) (k : A -> M C) (g : C -> M D) (w : World) :
  bind (bind m k) g w = bind m (fun a => bind (k a) g) w.
Proof. unfold bind. by destruct (m w) as [[a|e] w1]. Qed.

Lemma bind_run {A C} (m : M A) (k : A -> M C) (w w1 : World) (a : A) :
  m w = (Ret a, w1) -> bind m k w = k a w1.
Proof. intros E. unfold bind. by rewrite E. Qed.

Lemma for_each_app {A S} (xs ys : list A) (body : S -> A -> M S) (acc : S)
    (w : World) :
  for_each (xs ++ ys) body acc w =
    (acc' <- for_each xs body acc ;; for_each ys body acc') w.
Proof.
  revert acc w. induction xs as [|x xs IH]; intros acc w; [done|].
  cbn [app for_each]. rewrite bind_assoc.
  apply bind_ext; [done | apply IH].
Qed.

Lemma for_each_fmap {A A' S} (f : A -> A') (xs : list A)
    (body : S -> A' -> M S) (acc : S) (w : World) :
  for_each (f <$> xs) body acc w =
    for_each xs (fun acc x => body acc (f x)) acc w.
Proof.
  revert acc w. induction xs as [|x xs IH]; intros acc w; [done|].
  cbn [fmap list_fmap for_each]. apply bind_ext; [done | apply IH].
Qed.

Lemma for_each_ext {A S} (xs : list A) (body body' : S -> A -> M S) (acc : S)
    (w : World) :
  (forall acc x w, body acc x w = body' acc x w) ->
  for_each xs body acc w = for_each xs body' acc w.
Proof.
  intros E. revert acc w. induction xs as [|x xs IH]; intros acc w; [done|].
  cbn [for_each]. apply bind_ext; [apply E | apply IH].
Qed.

Section Refinement.
Variables (train_dataset : list Batch) (train_num : Z)
          (val_dataset : list Batch) (val_num : Z).

Local Abbreviation perform' :=
  (perform train_dataset train_num val_dataset val_num).
Local Abbreviation enact' :=
  (enact train_dataset train_num val_dataset val_num).

Lemma enact_app (cs1 cs2 : list Call) (logs : Log) (w : World) :
  enact' (cs1 ++ cs2) logs w = (logs1 <- enact' cs1 logs ;; enact' cs2 logs1) w.
Proof. apply for_each_app. Qed.

Lemma enact_app_bind {C} (K : Log -> M C) (cs1 cs2 : list Call) (logs : Log)
    (w : World) :
  bind (enact' (cs1 ++ cs2) logs) K w =
    bind (enact' cs1 logs) (fun logs1 => bind (enact' cs2 logs1) K) w.
Proof.
  rewrite <- bind_assoc. apply bind_ext; [apply enact_app | done].
Qed.

Lemma call_hook_performs (h : Hook) (callback : Callback) (logs : Log)
    (w : World) :
  call_hook h callback logs w = perform' logs (CHook h callback) w.
Proof.
  unfold call_hook, perform, bind, gets, touch, emit, ret, landed.
  replace (hook_fn h callback logs (reach w))
    with (method h callback logs (reach w)) by (by destruct h).
  by destruct (method h callback logs (reach w)) as [logs' t].
Qed.

Lemma call_hooks_enacts (h : Hook) (callbacks : list Callback) (logs : Log)
    (w : World) :
  call_hooks h callbacks logs w = enact' (CHook h <$> callbacks) logs w.
Proof.
  unfold call_hooks, enact. rewrite for_each_fmap.
  apply for_each_ext. intros. apply call_hook_performs.
Qed.

Lemma call_set_model_performs (callback : Callback) (w : World) :
  call_set_model callback w =
    (Ret tt, landed w (set_model callback (reach w)) (EvSetModel callback)).
Proof. reflexivity. Qed.

Lemma configure_enacts {C} (K : Log -> M C) (callbacks : list Callback)
    (u : unit) (logs : Log) (w : World) :
  bind (for_each callbacks (fun _ callback => call_set_model callback) u)
       (fun _ => K logs) w
  = bind (enact' (CSetModel <$> callbacks) logs) K w.
Proof.
  revert u w. induction callbacks as [|callback rest IH]; intros u w; [done|].
  unfold enact. cbn [fmap list_fmap for_each]. rewrite !bind_assoc.
  rewrite (bind_run _ _ _ _ _ (call_set_model_performs callback w)).
  rewrite (bind_run (perform' logs (CSetModel callback)) _ w _ logs eq_refl).
  apply IH.
Qed.

Lemma epoch_losses_enacts (logs : Log) (w : World) :
  epoch_losses train_dataset train_num val_dataset val_num logs w =
    enact' [CEpoch true; CEpoch false] logs w.
Proof.
  unfold epoch_losses, enact. cbn [for_each perform]. unfold bind, ret.
  destruct (_distributed_epoch train_dataset true train_num w)
    as [[train_loss|e] w1]; [|done].
  by destruct (_distributed_epoch val_dataset false val_num w1)
    as [[val_loss|e] w2].
Qed.

Lemma fit_epoch_enacts (callbacks : list Callback) (logs : Log) (epoch : Z)
    (w : World) :
  fit_epoch callbacks train_dataset train_num val_dataset val_num logs epoch w
  = enact' (epoch_calls callbacks epoch) logs w.
Proof.
  unfold fit_epoch, epoch_calls. rewrite enact_app.
  apply bind_ext; [apply call_hooks_enacts|]. intros logs1 w1.
  rewrite enact_app.
  apply bind_ext; [apply epoch_losses_enacts|]. intros logs2 w2.
  apply call_hooks_enacts.
Qed.

Lemma epochs_loop_enacts (callbacks : list Callback) (epochs : list Z)
    (logs : Log) (w : World) :
  for_each epochs
    (fit_epoch callbacks train_dataset train_num val_dataset val_num) logs w
  = enact' (concat (epoch_calls callbacks <$> epochs)) logs w.
Proof.
  revert logs w. induction epochs as [|epoch rest IH]; intros logs w; [done|].
  cbn [fmap list_fmap concat for_each]. rewrite enact_app.
  apply bind_ext; [apply fit_epoch_enacts | apply IH].
Qed.

Lemma range_indices (epochs : Z) : range epochs = epoch_indices epochs.
Proof. reflexivity. Qed.

(** Lines 96-113 of [fit] make the calls of the protocol, in its order,
    on one log that starts empty. *)
Lemma run_protocol_enacts (epochs : Z) (callbacks : list Callback)
    (w : World) :
  run_protocol epochs callbacks train_dataset train_num val_dataset val_num w
  = (enact' (protocol_calls callbacks epochs) ∅ ;; ret tt) w.
Proof.
  unfold run_protocol, protocol_calls, _configure_callbacks. cbv zeta.
  rewrite enact_app_bind.
  rewrite <- (configure_enacts _ callbacks tt ∅ w).
  apply bind_ext; [done|]. intros u w0. cbn beta.
  rewrite enact_app_bind.
  apply bind_ext; [apply call_hooks_enacts|]. intros logs1 w1.
  rewrite enact_app_bind.
  apply bind_ext; [rewrite range_indices; apply epochs_loop_enacts|].
  intros logs2 w2.
  apply bind_ext; [apply call_hooks_enacts | done].
Qed.

Lemma store_training_state_runs (writer' : option Writer)
    (use_ema' use_adv' : bool) (adv_config' : AdvConfig) (w : World) :
  store_training_state writer' use_ema' use_adv' adv_config' w =
    (Ret tt, with_state w (stored writer' use_ema' use_adv' adv_config')).
Proof. reflexivity. Qed.

(** [fit] stores its arguments and then makes the calls of the protocol,
    in its order, on one log that starts empty. *)
Lemma fit_enacts (epochs : Z) (callbacks : list Callback)
    (writer' : option Writer) (use_ema' use_adv' : bool)
    (adv_config' : AdvConfig) (w : World) :
  fit epochs callbacks train_dataset train_num val_dataset val_num
      writer' use_ema' use_adv' adv_config' w
  = (enact' (protocol_calls callbacks epochs) ∅ ;; ret tt)
      (with_state w (stored writer' use_ema' use_adv' adv_config')).
Proof.
  unfold fit.
  rewrite (bind_run _ _ _ _ _
             (store_training_state_runs writer' use_ema' use_adv'
                adv_config' w)).
  apply run_protocol_enacts.
Qed.

(** *** Every call returns, inside a configured fit *)

Lemma configured_assigned (s : TrainingState) (l : list Assignment) :
  is_Some (writer s) /\ is_Some (use_ema s) /\
  is_Some (use_adv s) /\ is_Some (adv_config s) ->
  let s' := foldl assign s l in
  is_Some (writer s') /\ is_Some (use_ema s') /\
  is_Some (use_adv s') /\ is_Some (adv_config s').
Proof.
  revert s. induction l as [|a l IH]; intros s conf; [done|].
  cbn [foldl]. apply IH. destruct conf as (W & E & A & C).
  destruct a; cbn; eauto.
Qed.

Lemma configured_landed (w : World) (t : Touch) (ev : Event) :
  configured w -> configured (landed w t ev).
Proof. intros conf. by apply configured_assigned. Qed.

Lemma perform_performed (logs : Log) (c : Call) (w : World) :
  configured w ->
  exists logs' w' seg,
    perform' logs c w = (Ret logs', w') /\
    performed train_dataset val_dataset c logs w logs' w' seg /\
    configured w'.
Proof.
  intros conf. destruct c as [callback | h callback | training].
  - eexists _, _, _. split; [reflexivity|].
    split; [constructor | by apply configured_landed].
  - eexists _, _, _. split; [reflexivity|].
    split; [constructor | by apply configured_landed].
  - destruct (configured_attributes w conf)
      as (wr & ema & adv & cfg & Ewr & Eema & Eadv & Ecfg).
    destruct training.
    + destruct (distributed_epoch_full train_dataset true train_num w wr ema
                  adv cfg Ewr Eema Eadv Ecfg)
        as (body & w' & E & T & S & X & M & D & _ & _ & _ & A & C & V).
      cbn [perform]. unfold bind. rewrite E. eexists _, _, _.
      split; [reflexivity|]. split; [|by eapply configured_state].
      apply (performed_epoch _ _ true logs w w' body); try done.
      * by rewrite A, length_batch_gradients.
      * intros N. rewrite A in N.
        apply (f_equal length) in N. rewrite length_batch_gradients in N.
        destruct train_dataset; [|done]. cbn in M.
        injection M as Mo Mv. by split.
    + destruct (distributed_epoch_full val_dataset false val_num w wr ema
                  adv cfg Ewr Eema Eadv Ecfg)
        as (body & w' & E & T & S & X & M & D & _ & _ & _ & A & C & V).
      cbn [perform]. unfold bind. rewrite E. eexists _, _, _.
      split; [reflexivity|]. split; [|by eapply configured_state].
      apply (performed_epoch _ _ false logs w w' body); try done.
      * by rewrite A.
      * intros _. rewrite after_epoch_validation in M.
        injection M as Mo Mv. by split.
Qed.

Lemma enact_enacted (cs : list Call) (logs : Log) (w : World) :
  configured w ->
  exists logs' w' seg,
    enact' cs logs w = (Ret logs', w') /\
    enacted train_dataset val_dataset cs logs w logs' w' seg /\
    configured w'.
Proof.
  revert logs w. induction cs as [|c cs IH]; intros logs w conf.
  - exists logs, w, []. split; [done|]. split; [constructor | done].
  - destruct (perform_performed logs c w conf)
      as (logs1 & w1 & seg1 & E1 & P1 & conf1).
    destruct (IH logs1 w1 conf1) as (logs2 & w2 & seg2 & E2 & P2 & conf2).
    exists logs2, w2, (seg1 ++ seg2). unfold enact in *. cbn [for_each].
    rewrite (bind_run _ _ _ _ _ E1). split; [done|].
    split; [by econstructor | done].
Qed.

(** Every call of [fit] returns normally, having made the calls of the
    protocol from the world in which its arguments are stored. *)
Lemma fit_enacted (epochs : Z) (callbacks : list Callback)
    (writer' : option Writer) (use_ema' use_adv' : bool)
    (adv_config' : AdvConfig) (w : World) :
  exists logs' w' seg,
    fit epochs callbacks train_dataset train_num val_dataset val_num
        writer' use_ema' use_adv' adv_config' w = (Ret tt, w') /\
    enacted train_dataset val_dataset (protocol_calls callbacks epochs) ∅
      (with_state w (stored writer' use_ema' use_adv' adv_config'))
      logs' w' seg /\
    configured w'.
Proof.
  destruct (enact_enacted (protocol_calls callbacks epochs) ∅
              (with_state w (stored writer' use_ema' use_adv' adv_config')))
    as (logs' & w' & seg & E & P & conf).
  { unfold configured. cbn. eauto. }
  exists logs', w', seg. rewrite fit_enacts.
  by rewrite (bind_run _ _ _ _ _ E).
Qed.

End Refinement.

End OrchestratorFacts.

(** ** What a list of calls leaves behind *)

Section EnactedFacts.
Context `{B : Backend}.
Variables train_dataset val_dataset : list Batch.

Local Abbreviation performed' := (performed train_dataset val_dataset).
Local Abbreviation enacted' := (enacted train_dataset val_dataset).

Lemma performed_trace (c : Call) (logs : Log) (w : World) (logs' : Log)
    (w' : World) (seg : list Event) :
  performed' c logs w logs' w' seg -> trace w' = trace w ++ seg.
Proof. by intros []. Qed.

Lemma enacted_trace (cs : list Call) (logs : Log) (w : World) (logs' : Log)
    (w' : World) (seg : list Event) :
  enacted' cs logs w logs' w' seg -> trace w' = trace w ++ seg.
Proof.
  induction 1 as [|c cs logs w logs1 w1 seg1 logs2 w2 seg2 P _ IH].
  - by rewrite app_nil_r.
  - rewrite IH, (performed_trace _ _ _ _ _ _ P). by rewrite app_assoc.
Qed.

(** What the events of one call show. *)
Lemma performed_reading (c : Call) (logs : Log) (w : World) (logs' : Log)
    (w' : World) (seg : list Event) :
  performed' c logs w logs' w' seg ->
  calls seg = [c] /\
  dispatched seg = call_runs train_dataset val_dataset c /\
  length (applied seg) = (if trains c then length train_dataset else 0%nat) /\
  Forall genuine (view seg) /\
  (forall rest, shared_log logs' rest -> shared_log logs (view seg ++ rest)).
Proof.
  intros [callback logs0 w0 | h callback logs0 w0
         | training logs0 w0 w1 body mean S X T C V D A F].
  - by repeat split.
  - repeat split; try done.
    repeat constructor. by exists (reach w0).
  - unfold calls, dispatched, applied, view in *.
    rewrite !omap_app, C, V, D. csimpl. rewrite !app_nil_r, A.
    split; [done|]. split; [by destruct training|].
    split; [by destruct training|]. split; [by repeat constructor|].
    intros rest. by destruct training.
Qed.

Lemma enacted_reading (cs : list Call) (logs : Log) (w : World) (logs' : Log)
    (w' : World) (seg : list Event) :
  enacted' cs logs w logs' w' seg ->
  calls seg = cs /\
  dispatched seg = concat (call_runs train_dataset val_dataset <$> cs) /\
  length (applied seg) =
    sum_list_with
      (fun c => if trains c then length train_dataset else 0%nat) cs /\
  Forall genuine (view seg) /\
  (forall rest, shared_log logs' rest -> shared_log logs (view seg ++ rest)).
Proof.
  induction 1 as [|c cs logs w logs1 w1 seg1 logs2 w2 seg2 P _
                    (C2 & D2 & A2 & G2 & Sh2)].
  - by repeat split.
  - destruct (performed_reading _ _ _ _ _ _ P) as (C1 & D1 & A1 & G1 & Sh1).
    unfold calls, dispatched, applied, view in *.
    rewrite !omap_app, length_app, C1, C2, D1, D2, A1, A2.
    split; [done|]. split; [done|]. split; [done|].
    split; [by apply Forall_app|].
    intros rest Sh. rewrite <- app_assoc. apply Sh1, Sh2, Sh.
Qed.

(** Callbacks that assign no attribute leave the training state alone. *)
Lemma enacted_attributes (cs : list Call) (logs : Log) (w : World)
    (logs' : Log) (w' : World) (seg : list Event) :
  enacted' cs logs w logs' w' seg ->
  Forall (fun c => from_option keeps_attributes True (caller_of c)) cs ->
  state w' = state w.
Proof.
  induction 1 as [|c cs logs w logs1 w1 seg1 logs2 w2 seg2 P _ IH]; [done|].
  intros K. apply Forall_cons in K as [K1 K2]. rewrite (IH K2).
  destruct P as [callback logs0 w0 | h callback logs0 w0
                | training logs0 w0 w1 body mean S X T C V D A F].
  - cbn in K1. destruct K1 as [K1 _]. cbn. by rewrite K1.
  - cbn in K1. destruct K1 as [_ K1]. cbn. by rewrite K1.
  - done.
Qed.

(** Callbacks that leave the model alone, and no gradient applied: the
    variables and the optimizer state are as they were. *)
Lemma enacted_model (cs : list Call) (logs : Log) (w : World)
    (logs' : Log) (w' : World) (seg : list Event) :
  enacted' cs logs w logs' w' seg ->
  Forall (fun c => from_option keeps_model True (caller_of c)) cs ->
  applied seg = [] ->
  same_model w w'.
Proof.
  induction 1 as [|c cs logs w logs1 w1 seg1 logs2 w2 seg2 P _ IH]; [done|].
  intros K N. apply Forall_cons in K as [K1 K2].
  unfold applied in N. rewrite omap_app in N.
  apply app_eq_nil in N as [N1 N2].
  destruct (IH K2 N2) as [V2 O2].
  assert (S1 : same_model w w1).
  { destruct P as [callback logs0 w0 | h callback logs0 w0
                  | training logs0 w0 w1 body mean S X T C V D A F].
    - cbn in K1. destruct K1 as [K1 _]. exact (K1 (reach w0)).
    - cbn in K1. destruct K1 as [_ K1]. exact (K1 h logs0 (reach w0)).
    - apply F. rewrite omap_app in N1. by apply app_eq_nil in N1 as [N1 _]. }
  destruct S1 as [V1 O1]. split; congruence.
Qed.

(** *** Taking a list of calls apart *)

Lemma enacted_app_inv (cs1 cs2 : list Call) (logs : Log) (w : World)
    (logs' : Log) (w' : World) (seg : list Event) :
  enacted' (cs1 ++ cs2) logs w logs' w' seg ->
  exists logs1 w1 seg1 seg2,
    enacted' cs1 logs w logs1 w1 seg1 /\
    enacted' cs2 logs1 w1 logs' w' seg2 /\
    seg = seg1 ++ seg2.
Proof.
  revert logs w seg. induction cs1 as [|c cs1 IH]; intros logs w seg H.
  - exists logs, w, [], seg. split; [constructor | done].
  - inversion H as [|c' cs' l0 w0 l1 w1 s1 l2 w2 s2 P Rest]; subst.
    destruct (IH _ _ _ Rest) as (l3 & w3 & s3 & s4 & H1 & H2 & ->).
    exists l3, w3, (s1 ++ s3), s4.
    split; [by econstructor|]. split; [done | by rewrite app_assoc].
Qed.

Lemma enacted_set_models (callbacks : list Callback) (logs : Log) (w : World)
    (logs' : Log) (w' : World) (seg : list Event) :
  enacted' (CSetModel <$> callbacks) logs w logs' w' seg ->
  logs' = logs /\ view seg = [].
Proof.
  revert w seg. induction callbacks as [|callback rest IH]; intros w seg H.
  - by inversion H.
  - inversion H as [|c' cs' l0 w0 l1 w1 s1 l2 w2 s2 P Rest]; subst.
    inversion P; subst. destruct (IH _ _ Rest) as [-> V].
    split; [done|]. unfold view in *. by rewrite omap_app, V.
Qed.

(** Hooks that only read the log are all handed the same log. *)
Lemma enacted_hooks_read (h : Hook) (callbacks : list Callback) (logs : Log)
    (w : World) (logs' : Log) (w' : World) (seg : list Event) :
  enacted' (CHook h <$> callbacks) logs w logs' w' seg ->
  Forall (reads_log_in h) callbacks ->
  logs' = logs /\
  view seg = (fun callback => VHook callback h logs logs) <$> callbacks.
Proof.
  revert w seg. induction callbacks as [|callback rest IH]; intros w seg H R.
  - by inversion H.
  - apply Forall_cons in R as [R1 R2].
    inversion H as [|c' cs' l0 w0 l1 w1 s1 l2 w2 s2 P Rest]; subst.
    inversion P; subst. rewrite (R1 logs (reach w)) in *.
    destruct (IH _ _ Rest R2) as [-> V].
    split; [done|]. unfold view in *. rewrite omap_app, V. done.
Qed.

Lemma enacted_epochs (logs : Log) (w : World) (logs' : Log) (w' : World)
    (seg : list Event) :
  enacted' [CEpoch true; CEpoch false] logs w logs' w' seg ->
  exists train_loss val_loss,
    logs' = <["val_loss" := val_loss]> (<["loss" := train_loss]> logs) /\
    view seg = [VEpoch true train_loss; VEpoch false val_loss].
Proof.
  intros H.
  inversion H as [|c1 cs1 l0 w0 l1 w1 s1 l2 w2 s2 P1 Rest1]; subst.
  inversion Rest1 as [|c2 cs2 l3 w3 l4 w4 s3 l5 w5 s4 P2 Rest2]; subst.
  inversion Rest2; subst.
  destruct (performed_reading _ _ _ _ _ _ P1) as (_ & _ & _ & _ & Sh1).
  inversion P1 as [| | tr1 la wa wb body1 mean1 S1 X1 T1 C1 V1 D1 A1 F1]; subst.
  inversion P2 as [| | tr2 lb wc wd body2 mean2 S2 X2 T2 C2 V2 D2 A2 F2]; subst.
  exists mean1, mean2. split; [done|].
  unfold view in *. rewrite !omap_app, V1, V2. done.
Qed.

Lemma enacted_hook (h : Hook) (callback : Callback) (logs : Log) (w : World)
    (logs' : Log) (w' : World) (seg : list Event) :
  enacted' [CHook h callback] logs w logs' w' seg ->
  logs' = fst (method h callback logs (reach w)) /\
  view seg = [VHook callback h logs logs'].
Proof.
  intros H.
  inversion H as [|c' cs' l0 w0 l1 w1 s1 l2 w2 s2 P Rest]; subst.
  inversion Rest; subst. by inversion P; subst.
Qed.

End EnactedFacts.

(** ** The protocol, as a list of calls *)

Section ProtocolFacts.
Context `{B : Backend}.
Variables train_dataset val_dataset : list Batch.

Local Abbreviation runs_of_calls :=
  (fun cs : list Call =>
     concat (call_runs train_dataset val_dataset <$> cs)).
Local Abbreviation updates_of_calls :=
  (sum_list_with
     (fun c : Call => if trains c then length train_dataset else 0%nat)).

(** Calls of callback methods dispatch and train nothing. *)
Lemma methods_quiet (f : Callback -> Call) (callbacks : list Callback) :
  (forall callback, is_Some (caller_of (f callback))) ->
  runs_of_calls (f <$> callbacks) = [] /\
  updates_of_calls (f <$> callbacks) = 0%nat.
Proof.
  intros M. induction callbacks as [|callback rest [IH1 IH2]]; [done|].
  cbn [fmap list_fmap concat sum_list_with]. rewrite IH1, IH2.
  destruct (M callback) as [caller E].
  by destruct (f callback) as [?|??|?].
Qed.

Lemma epoch_calls_quiet (callbacks : list Callback) (epoch : Z) :
  runs_of_calls (epoch_calls callbacks epoch)
    = epoch_runs train_dataset val_dataset /\
  updates_of_calls (epoch_calls callbacks epoch) = length train_dataset.
Proof.
  unfold epoch_calls.
  destruct (methods_quiet (CHook (OnEpochBegin epoch)) callbacks) as [B1 B2];
    [by eexists|].
  destruct (methods_quiet (CHook (OnEpochEnd epoch)) callbacks) as [E1 E2];
    [by eexists|].
  rewrite !fmap_app, !concat_app, !sum_list_with_app, B1, B2, E1, E2.
  cbn. rewrite !app_nil_r. split; [done | lia].
Qed.

Lemma epochs_quiet (callbacks : list Callback) (epochs : list Z) :
  runs_of_calls (concat (epoch_calls callbacks <$> epochs))
    = concat (replicate (length epochs)
                (epoch_runs train_dataset val_dataset)) /\
  updates_of_calls (concat (epoch_calls callbacks <$> epochs))
    = (length epochs * length train_dataset)%nat.
Proof.
  induction epochs as [|epoch rest [IH1 IH2]]; [done|].
  destruct (epoch_calls_quiet callbacks epoch) as [E1 E2].
  cbn [fmap list_fmap concat length replicate].
  rewrite fmap_app, concat_app, sum_list_with_app, E1, E2, IH1, IH2.
  split; [done | lia].
Qed.

Lemma length_epoch_indices (epochs : Z) :
  length (epoch_indices epochs) = Z.to_nat epochs.
Proof. unfold epoch_indices. by rewrite length_fmap, length_seq. Qed.

(** What the protocol dispatches, and how many batches it trains on. *)
Lemma protocol_quiet (callbacks : list Callback) (epochs : Z) :
  runs_of_calls (protocol_calls callbacks epochs)
    = concat (replicate (Z.to_nat epochs)
                (epoch_runs train_dataset val_dataset)) /\
  updates_of_calls (protocol_calls callbacks epochs)
    = (Z.to_nat epochs * length train_dataset)%nat.
Proof.
  unfold protocol_calls.
  destruct (methods_quiet CSetModel callbacks) as [S1 S2]; [by eexists|].
  destruct (methods_quiet (CHook OnTrainBegin) callbacks) as [B1 B2];
    [by eexists|].
  destruct (methods_quiet (CHook OnTrainEnd) callbacks) as [E1 E2];
    [by eexists|].
  destruct (epochs_quiet callbacks (epoch_indices epochs)) as [L1 L2].
  rewrite length_epoch_indices in L1, L2.
  rewrite !fmap_app, !concat_app, !sum_list_with_app.
  rewrite S1, S2, B1, B2, E1, E2, L1, L2.
  cbn. rewrite !app_nil_r. split; [done | lia].
Qed.

(** Every callback method the protocol calls is one of [callbacks]. *)
Lemma protocol_callers (P : Callback -> Prop) (callbacks : list Callback)
    (epochs : Z) :
  Forall P callbacks ->
  Forall (fun c => from_option P True (caller_of c))
    (protocol_calls callbacks epochs).
Proof.
  intros H.
  assert (methods : forall f : Callback -> Call,
            (forall callback, caller_of (f callback) = Some callback) ->
            Forall (fun c => from_option P True (caller_of c))
              (f <$> callbacks)).
  { intros f E. apply Forall_fmap. eapply Forall_impl; [exact H|].
    intros callback p. cbn. by rewrite E. }
  unfold protocol_calls. repeat apply Forall_app_2; try by apply methods.
  apply Forall_concat, Forall_fmap, Forall_forall. intros epoch _.
  unfold epoch_calls. repeat apply Forall_app_2; try by apply methods.
  by repeat constructor.
Qed.

(** *** The keys of the log, when the callbacks only read it *)

Lemma dom_losses (logs : Log) (train_loss val_loss : scalar) :
  dom logs ⊆ loss_keys ->
  dom (<["val_loss" := val_loss]> (<["loss" := train_loss]> logs)) = loss_keys.
Proof.
  intros small. rewrite !dom_insert_L. unfold loss_keys in *.
  apply set_eq. intros k. specialize (small k). revert small.
  rewrite !elem_of_union, !elem_of_singleton. tauto.
Qed.

Lemma epoch_end_logs_app (seg1 seg2 : list Event) :
  epoch_end_logs (seg1 ++ seg2) = epoch_end_logs seg1 ++ epoch_end_logs seg2.
Proof. unfold epoch_end_logs, view. by rewrite !omap_app. Qed.

Lemma train_begin_logs_app (seg1 seg2 : list Event) :
  train_begin_logs (seg1 ++ seg2) =
    train_begin_logs seg1 ++ train_begin_logs seg2.
Proof. unfold train_begin_logs, view. by rewrite !omap_app. Qed.

(** The logs handed to [on_epoch_end], read off the hooks of one group. *)
Lemma epoch_end_logs_hooks (h : Hook) (callbacks : list Callback) (logs : Log)
    (seg : list Event) :
  view seg = (fun callback => VHook callback h logs logs) <$> callbacks ->
  epoch_end_logs seg =
    match h with
    | OnEpochEnd epoch => (fun _ => (epoch, logs)) <$> callbacks
    | _ => []
    end.
Proof.
  intros V. unfold epoch_end_logs. rewrite V. clear V.
  induction callbacks as [|callback rest IH]; [by destruct h|].
  csimpl. rewrite IH. by destruct h.
Qed.

Lemma enacted_epoch_keys (callbacks : list Callback) (epoch : Z) (logs : Log)
    (w : World) (logs' : Log) (w' : World) (seg : list Event) :
  enacted train_dataset val_dataset (epoch_calls callbacks epoch)
    logs w logs' w' seg ->
  Forall reads_log callbacks ->
  dom logs ⊆ loss_keys ->
  dom logs' = loss_keys /\
  Forall (fun '(_, logs) => dom logs = loss_keys) (epoch_end_logs seg).
Proof.
  intros H R small. unfold epoch_calls in H.
  apply enacted_app_inv in H as (l1 & w1 & s1 & s2 & H1 & H & ->).
  apply enacted_app_inv in H as (l2 & w2 & s3 & s4 & H2 & H3 & ->).
  apply enacted_hooks_read in H1 as [-> V1];
    [|eapply Forall_impl; [exact R | intros callback r; apply r]].
  apply enacted_epochs in H2 as (train_loss & val_loss & -> & V2).
  apply enacted_hooks_read in H3 as [-> V3];
    [|eapply Forall_impl; [exact R | intros callback r; apply r]].
  split; [by apply dom_losses|].
  rewrite !epoch_end_logs_app.
  rewrite (epoch_end_logs_hooks _ _ _ _ V1), (epoch_end_logs_hooks _ _ _ _ V3).
  unfold epoch_end_logs at 1. rewrite V2. csimpl.
  apply Forall_fmap, Forall_forall. intros callback _. cbn.
  by apply dom_losses.
Qed.

Lemma enacted_epochs_keys (callbacks : list Callback) (epochs : list Z)
    (logs : Log) (w : World) (logs' : Log) (w' : World) (seg : list Event) :
  enacted train_dataset val_dataset
    (concat (epoch_calls callbacks <$> epochs)) logs w logs' w' seg ->
  Forall reads_log callbacks ->
  dom logs ⊆ loss_keys ->
  Forall (fun '(_, logs) => dom logs = loss_keys) (epoch_end_logs seg).
Proof.
  revert logs w seg. induction epochs as [|epoch rest IH];
    intros logs w seg H R small.
  - by inversion H.
  - cbn [fmap list_fmap concat] in H.
    apply enacted_app_inv in H as (l1 & w1 & s1 & s2 & H1 & H2 & ->).
    destruct (enacted_epoch_keys _ _ _ _ _ _ _ H1 R small) as [D K].
    rewrite epoch_end_logs_app. apply Forall_app. split; [done|].
    apply (IH _ _ _ H2 R). by rewrite D.
Qed.

(** Under callbacks that only read the log, every log handed to
    [on_epoch_end] has exactly the keys ["loss"] and ["val_loss"]. *)
Lemma enacted_protocol_keys (callbacks : list Callback) (epochs : Z)
    (w : World) (logs' : Log) (w' : World) (seg : list Event) :
  enacted train_dataset val_dataset (protocol_calls callbacks epochs)
    ∅ w logs' w' seg ->
  Forall reads_log callbacks ->
  Forall (fun '(_, logs) => dom logs = loss_keys) (epoch_end_logs seg).
Proof.
  intros H R. unfold protocol_calls in H.
  assert (reads : forall h, Forall (reads_log_in h) callbacks).
  { intros h. eapply Forall_impl; [exact R | intros callback r; apply r]. }
  apply enacted_app_inv in H as (l1 & w1 & s1 & sa & H1 & H & ->).
  apply enacted_app_inv in H as (l2 & w2 & s2 & sb & H2 & H & ->).
  apply enacted_app_inv in H as (l3 & w3 & s3 & s4 & H3 & H4 & ->).
  apply enacted_set_models in H1 as [-> V1].
  apply enacted_hooks_read in H2 as [-> V2]; [|apply reads].
  pose proof (enacted_epochs_keys _ _ _ _ _ _ _ H3 R) as K3.
  apply enacted_hooks_read in H4 as [-> V4]; [|apply reads].
  rewrite !epoch_end_logs_app.
  rewrite (epoch_end_logs_hooks _ _ _ _ V2), (epoch_end_logs_hooks _ _ _ _ V4).
  unfold epoch_end_logs at 1. rewrite V1. cbn [omap list_omap app].
  rewrite app_nil_r. apply K3. rewrite dom_empty_L. set_solver.
Qed.

End ProtocolFacts.

(** ** The epoch runner *)

Section EpochFacts.
Context `{B : Backend}.

(** C5: with the attributes assigned, as they are inside [fit], whatever
    the dataset, the phase and the advisory count [num], the epoch runner
    returns normally, dispatches every batch of the dataset exactly once
    and in order, and returns the sum of the reduced losses of the batches
    divided by the number of batches of the dataset. The reduced loss of a
    batch is the sum, over the replicas, of the loss the step returns on
    the replica's value of the batch, at the variables the batches before
    it left. [num] is never read. *)
Theorem distributed_epoch_mean (dataset : list Batch) (step : bool) (num : Z)
    (w : World) (adv : bool) (cfg : AdvConfig) :
  is_Some (writer (state w)) ->
  is_Some (use_ema (state w)) ->
  use_adv (state w) = Some adv ->
  adv_config (state w) = Some cfg ->
  let losses :=
    batch_losses step adv cfg (optimizer w, trainable_variables w) dataset in
  let mean := sdiv (ssum losses) (INR (length dataset)) in
  exists body w',
    _distributed_epoch dataset step num w = (Ret mean, w') /\
    trace w' = trace w ++ body ++ [EvEpochResult step mean] /\
    dispatched body = (fun batch => (step, batch)) <$> dataset /\
    reductions body = losses /\
    length losses = length dataset.
Proof.
  intros [wr Ewr] [ema Eema] Eadv Ecfg losses mean. subst losses mean.
  destruct (distributed_epoch_full dataset step num w wr ema adv cfg
              Ewr Eema Eadv Ecfg)
    as (body & w' & E & T & _ & _ & _ & D & R & _).
  exists body, w'. rewrite length_batch_losses. done.
Qed.

(** C10: inside a configured fit, an epoch over a dataset of zero batches
    raises nothing. For either phase and any advisory count it returns the
    quotient of the zero total by the zero count, which is not a finite
    number, and [fit] stores that value in the log: under ["loss"] when
    the training dataset is empty, under ["val_loss"] when the validation
    dataset is. *)
Theorem empty_dataset_mean (w : World) :
  configured w ->
  (forall step num,
     exists w', _distributed_epoch [] step num w = (Ret (sdiv (Fin 0) 0), w')) /\
  ~ is_finite (sdiv (Fin 0) 0) /\
  (forall train_num val_dataset val_num logs,
     exists logs' w',
       epoch_losses [] train_num val_dataset val_num logs w = (Ret logs', w') /\
       logs' !! "loss" = Some (sdiv (Fin 0) 0)) /\
  (forall train_dataset train_num val_num logs,
     exists logs' w',
       epoch_losses train_dataset train_num [] val_num logs w = (Ret logs', w') /\
       logs' !! "val_loss" = Some (sdiv (Fin 0) 0)).
Proof.
  intros conf. rewrite (sdiv_zero (Fin 0)).
  destruct (configured_attributes w conf)
    as (wr & ema & adv & cfg & Ewr & Eema & Eadv & Ecfg).
  split; [|split; [|split]].
  - intros step num. eexists. apply distributed_epoch_empty.
  - by intros [].
  - intros train_num val_dataset val_num logs.
    unfold epoch_losses, bind. rewrite distributed_epoch_empty.
    match goal with
    | |- context [_distributed_epoch val_dataset false val_num ?w1] =>
        destruct (distributed_epoch_full val_dataset false val_num w1 wr ema
                    adv cfg Ewr Eema Eadv Ecfg)
          as (body & w2 & E & _)
    end.
    rewrite E. eexists _, _. split; [reflexivity|].
    by rewrite lookup_insert_ne, lookup_insert_eq.
  - intros train_dataset train_num val_num logs.
    unfold epoch_losses, bind.
    destruct (distributed_epoch_full train_dataset true train_num w wr ema
                adv cfg Ewr Eema Eadv Ecfg)
      as (body & w1 & E & _).
    rewrite E, distributed_epoch_empty. eexists _, _. split; [reflexivity|].
    by rewrite lookup_insert_eq.
Qed.

(** X12: inside a configured fit, the epoch runner prints one progress
    line per batch; line [k] (from 1) shows the count [k] and the mean of
    the first [k] reduced losses, and the mean of the last line is the
    value the runner returns. *)
Theorem epoch_progress_lines (dataset : list Batch) (step : bool) (num : Z)
    (w : World) :
  configured w ->
  exists body mean w',
    _distributed_epoch dataset step num w = (Ret mean, w') /\
    trace w' = trace w ++ body ++ [EvEpochResult step mean] /\
    length (reductions body) = length dataset /\
    progress body =
      (fun k => (INR k, sdiv (ssum (take k (reductions body))) (INR k)))
        <$> seq 1 (length dataset) /\
    last (progress body).*2 =
      match dataset with [] => None | _ :: _ => Some mean end.
Proof.
  intros conf.
  destruct (configured_attributes w conf)
    as (wr & ema & adv & cfg & Ewr & Eema & Eadv & Ecfg).
  destruct (distributed_epoch_full dataset step num w wr ema adv cfg
              Ewr Eema Eadv Ecfg)
    as (body & w' & E & T & _ & _ & _ & _ & R & P & _).
  eexists body, _, w'. split; [exact E|]. split; [exact T|].
  assert (L : length (reductions body) = length dataset)
    by (by rewrite R, length_batch_losses).
  assert (P' : progress body =
               (fun k => (INR k, sdiv (ssum (take k (reductions body))) (INR k)))
                 <$> seq 1 (length dataset)).
  { rewrite P, R. apply list_fmap_ext. intros i k _.
    by rewrite sadd_zero_l, Rplus_0_l. }
  split; [exact L|]. split; [exact P'|].
  rewrite P'. destruct dataset as [|batch rest]; [done|].
  cbn [length] in *. rewrite seq_S, !fmap_app, last_app.
  cbn [fmap list_fmap last snd Nat.add].
  rewrite <- L, firstn_all. by rewrite R.
Qed.


(** X14: inside a configured fit, a validation epoch applies no gradient
    and leaves parameters, optimizer state and training state as they
    were, whatever the dataset. *)
Theorem validation_epoch_frame (dataset : list Batch) (num : Z) (w : World) :
  configured w ->
  exists mean seg w',
    _distributed_epoch dataset false num w = (Ret mean, w') /\
    trace w' = trace w ++ seg /\
    applied seg = [] /\ same_model w w' /\ state w' = state w.
Proof.
  intros conf.
  destruct (configured_attributes w conf)
    as (wr & ema & adv & cfg & Ewr & Eema & Eadv & Ecfg).
  destruct (distributed_epoch_full dataset false num w wr ema adv cfg
              Ewr Eema Eadv Ecfg)
    as (body & w' & E & T & S & _ & M & _ & _ & _ & _ & A & _).
  rewrite after_epoch_validation in M. injection M as Mo Mv.
  eexists _, _, w'. split; [exact E|]. split; [exact T|].
  unfold applied in *. rewrite omap_app, A. by repeat split.
Qed.

(** X15: with the attributes assigned, a training epoch dispatches the
    batches in dataset order and applies exactly one gradient per batch,
    whatever the number of replicas: the sum over the replicas of the
    gradients they computed at the variables the batch started from. The
    variables and the optimizer state it leaves are those of these updates
    made one after the other. *)
Theorem training_epoch_updates (dataset : list Batch) (num : Z) (w : World)
    (adv : bool) (cfg : AdvConfig) :
  is_Some (writer (state w)) ->
  is_Some (use_ema (state w)) ->
  use_adv (state w) = Some adv ->
  adv_config (state w) = Some cfg ->
  let m := (optimizer w, trainable_variables w) in
  exists mean seg w',
    _distributed_epoch dataset true num w = (Ret mean, w') /\
    trace w' = trace w ++ seg /\
    dispatched seg = (fun batch => (true, batch)) <$> dataset /\
    applied seg = batch_gradients adv cfg m dataset /\
    length (applied seg) = length dataset /\
    (optimizer w', trainable_variables w') = after_epoch true adv cfg m dataset.
Proof.
  intros [wr Ewr] [ema Eema] Eadv Ecfg m. subst m.
  destruct (distributed_epoch_full dataset true num w wr ema adv cfg
              Ewr Eema Eadv Ecfg)
    as (body & w' & E & T & _ & _ & M & D & _ & _ & _ & A & _).
  eexists _, _, w'. split; [exact E|]. split; [exact T|].
  unfold dispatched, applied in *. rewrite !omap_app, D, A. cbn.
  rewrite !app_nil_r, length_batch_gradients. done.
Qed.

(** X16: inside a configured fit, the mean loss an epoch returns can
    only be a finite number if the dataset has at least one batch and
    every reduced batch loss is finite: an empty dataset, or one batch
    with a non-finite loss, gives a non-finite epoch loss. *)
Theorem epoch_mean_finite (dataset : list Batch) (step : bool) (num : Z)
    (w : World) :
  configured w ->
  exists body mean w',
    _distributed_epoch dataset step num w = (Ret mean, w') /\
    trace w' = trace w ++ body ++ [EvEpochResult step mean] /\
    length (reductions body) = length dataset /\
    (is_finite mean ->
     dataset <> [] /\ Forall is_finite (reductions body)).
Proof.
  intros conf.
  destruct (configured_attributes w conf)
    as (wr & ema & adv & cfg & Ewr & Eema & Eadv & Ecfg).
  destruct (distributed_epoch_full dataset step num w wr ema adv cfg
              Ewr Eema Eadv Ecfg)
    as (body & w' & E & T & _ & _ & _ & _ & R & _).
  eexists body, _, w'. split; [exact E|]. split; [exact T|].
  split; [by rewrite R, length_batch_losses|].
  intros F. apply sdiv_finite in F as [F nz].
  split; [|rewrite R; by apply ssum_finite]. intros ->. by destruct nz.
Qed.

(** X17: on a model whose [writer] attribute was never assigned, the
    epoch runner given a dataset with at least one batch raises
    [AttributeError] before anything is dispatched: the world is left
    exactly as it was. *)
Theorem epoch_unconfigured (batch : Batch) (rest : list Batch) (step : bool)
    (num : Z) (w : World) :
  writer (state w) = None ->
  _distributed_epoch (batch :: rest) step num w
    = (Raise (AttributeError "writer"), w).
Proof.
  intros Ewr. unfold _distributed_epoch, epoch_batch. cbn [for_each].
  unfold bind, getattr. by rewrite Ewr.
Qed.

End EpochFacts.

(** ** fit *)

Section FitFacts.
Context `{B : Backend}.

(** What a run of [fit] shows, read off the calls it made. *)
Lemma fit_reading (epochs : Z) (callbacks : list Callback)
    (train_dataset : list Batch) (train_num : Z)
    (val_dataset : list Batch) (val_num : Z)
    (writer' : option Writer) (use_ema' use_adv' : bool)
    (adv_config' : AdvConfig) (w : World) :
  let w0 := with_state w (stored writer' use_ema' use_adv' adv_config') in
  exists logs' w' seg,
    fit epochs callbacks train_dataset train_num val_dataset val_num
        writer' use_ema' use_adv' adv_config' w = (Ret tt, w') /\
    enacted train_dataset val_dataset (protocol_calls callbacks epochs)
      ∅ w0 logs' w' seg /\
    trace w' = trace w ++ seg /\
    calls seg = protocol_calls callbacks epochs /\
    dispatched seg =
      concat (replicate (Z.to_nat epochs)
                (epoch_runs train_dataset val_dataset)) /\
    length (applied seg) = (Z.to_nat epochs * length train_dataset)%nat /\
    Forall genuine (view seg) /\
    shared_log ∅ (view seg).
Proof.
  intros w0.
  destruct (fit_enacted train_dataset train_num val_dataset val_num epochs
              callbacks writer' use_ema' use_adv' adv_config' w)
    as (logs' & w' & seg & E & En & _).
  destruct (enacted_reading _ _ _ _ _ _ _ _ En) as (C & D & A & G & Sh).
  destruct (protocol_quiet train_dataset val_dataset callbacks epochs)
    as [Q1 Q2].
  exists logs', w', seg. split; [exact E|]. split; [exact En|].
  split; [exact (enacted_trace _ _ _ _ _ _ _ _ En)|].
  split; [exact C|]. split; [by rewrite D, Q1|]. split; [by rewrite A, Q2|].
  split; [exact G|]. specialize (Sh [] I). by rewrite app_nil_r in Sh.
Qed.

(** C6 (amended): every call of [fit] returns normally and makes exactly
    the calls of the protocol, in its order: [set_model] on every callback;
    [on_train_begin] on every callback, once, before any epoch; for each
    epoch index of [0, epochs), in order, [on_epoch_begin] on every
    callback, one training epoch run, one validation epoch run,
    [on_epoch_end] on every callback; and last [on_train_end] on every
    callback, once; each group goes over the callbacks in list order. There
    is one log, created empty: every hook is handed it exactly as the hook
    before left it (so the first [on_train_begin] is handed an empty log),
    the log each hook leaves is the one the callback's method returned, and
    the only stores of [fit] itself are the results of the two epoch runs,
    under ["loss"] and ["val_loss"], before [on_epoch_end]. The world [fit]
    leaves is the one obtained by applying these methods and epoch runs
    one after the other. *)
Theorem fit_callback_protocol (epochs : Z) (callbacks : list Callback)
    (train_dataset : list Batch) (train_num : Z)
    (val_dataset : list Batch) (val_num : Z)
    (writer' : option Writer) (use_ema' use_adv' : bool)
    (adv_config' : AdvConfig) (w : World) :
  exists w' seg,
    fit epochs callbacks train_dataset train_num val_dataset val_num
        writer' use_ema' use_adv' adv_config' w = (Ret tt, w') /\
    trace w' = trace w ++ seg /\
    calls seg = protocol_calls callbacks epochs /\
    shared_log ∅ (view seg) /\
    Forall genuine (view seg) /\
    snd (enact train_dataset train_num val_dataset val_num
           (protocol_calls callbacks epochs) ∅
           (with_state w (stored writer' use_ema' use_adv' adv_config')))
      = w'.
Proof.
  destruct (fit_reading epochs callbacks train_dataset train_num val_dataset
              val_num writer' use_ema' use_adv' adv_config' w)
    as (logs' & w' & seg & E & _ & T & C & _ & _ & G & Sh).
  exists w', seg. split; [exact E|]. split; [exact T|]. split; [exact C|].
  split; [exact Sh|]. split; [exact G|].
  rewrite fit_enacts in E. unfold bind, ret in E.
  destruct (enact _ _ _ _ _ _ _) as [[logs|e] w1]; [|done].
  by injection E.
Qed.

(** C3 (amended): the log handed to [on_epoch_end] is not rebuilt every
    epoch. [fit] makes the calls of the protocol, [on_epoch_end] on every
    callback in every epoch; it creates one log, empty, before the first
    hook; every hook of every epoch is handed that log exactly as the hook
    before it left it, and between two hooks [fit] only stores the results
    of the two epoch runs under ["loss"] and ["val_loss"]: an entry written
    by a callback or in an earlier epoch stays until it is overwritten.
    When the callbacks only read the log, every log handed to
    [on_epoch_end], in every epoch and to every callback, has exactly the
    keys ["loss"] and ["val_loss"]. *)
Theorem epoch_end_log_keys (epochs : Z) (callbacks : list Callback)
    (train_dataset : list Batch) (train_num : Z)
    (val_dataset : list Batch) (val_num : Z)
    (writer' : option Writer) (use_ema' use_adv' : bool)
    (adv_config' : AdvConfig) (w : World) :
  exists w' seg,
    fit epochs callbacks train_dataset train_num val_dataset val_num
        writer' use_ema' use_adv' adv_config' w = (Ret tt, w') /\
    trace w' = trace w ++ seg /\
    calls seg = protocol_calls callbacks epochs /\
    shared_log ∅ (view seg) /\
    (Forall reads_log callbacks ->
     Forall (fun '(_, logs) => dom logs = loss_keys) (epoch_end_logs seg)).
Proof.
  destruct (fit_reading epochs callbacks train_dataset train_num val_dataset
              val_num writer' use_ema' use_adv' adv_config' w)
    as (logs' & w' & seg & E & En & T & C & _ & _ & _ & Sh).
  exists w', seg. split; [exact E|]. split; [exact T|]. split; [exact C|].
  split; [exact Sh|]. intros R. exact (enacted_protocol_keys _ _ _ _ _ _ _ _ En R).
Qed.

(** C4 (amended): [fit] never tears its training state down. When it
    returns and no callback assigned them in between, [writer], [use_ema],
    [use_adv] and [adv_config] are still set on the model, to the arguments
    of that call. *)
Theorem fit_state_persists (epochs : Z) (callbacks : list Callback)
    (train_dataset : list Batch) (train_num : Z)
    (val_dataset : list Batch) (val_num : Z)
    (writer' : option Writer) (use_ema' use_adv' : bool)
    (adv_config' : AdvConfig) (w : World) :
  Forall keeps_attributes callbacks ->
  exists w',
    fit epochs callbacks train_dataset train_num val_dataset val_num
        writer' use_ema' use_adv' adv_config' w = (Ret tt, w') /\
    state w' = stored writer' use_ema' use_adv' adv_config'.
Proof.
  intros K.
  destruct (fit_reading epochs callbacks train_dataset train_num val_dataset
              val_num writer' use_ema' use_adv' adv_config' w)
    as (logs' & w' & seg & E & En & _).
  exists w'. split; [exact E|].
  exact (enacted_attributes _ _ _ _ _ _ _ _ En
           (protocol_callers _ _ epochs K)).
Qed.

(** X18: every call of [fit] returns normally and dispatches, for each of
    the [max 0 epochs] epochs in turn, every batch of the training dataset
    in the training phase and then every batch of the validation dataset
    in the validation phase, in dataset order; nothing else is dispatched. *)
Theorem fit_dispatch_order (epochs : Z) (callbacks : list Callback)
    (train_dataset : list Batch) (train_num : Z)
    (val_dataset : list Batch) (val_num : Z)
    (writer' : option Writer) (use_ema' use_adv' : bool)
    (adv_config' : AdvConfig) (w : World) :
  exists w' seg,
    fit epochs callbacks train_dataset train_num val_dataset val_num
        writer' use_ema' use_adv' adv_config' w = (Ret tt, w') /\
    trace w' = trace w ++ seg /\
    dispatched seg =
      concat (replicate (Z.to_nat epochs)
                (epoch_runs train_dataset val_dataset)).
Proof.
  destruct (fit_reading epochs callbacks train_dataset train_num val_dataset
              val_num writer' use_ema' use_adv' adv_config' w)
    as (logs' & w' & seg & E & _ & T & _ & D & _).
  by exists w', seg.
Qed.

(** X19: every call of [fit] applies exactly one gradient per epoch and
    per training batch, whatever the number of replicas; validation
    batches apply none. *)
Theorem fit_gradient_updates (epochs : Z) (callbacks : list Callback)
    (train_dataset : list Batch) (train_num : Z)
    (val_dataset : list Batch) (val_num : Z)
    (writer' : option Writer) (use_ema' use_adv' : bool)
    (adv_config' : AdvConfig) (w : World) :
  exists w' seg,
    fit epochs callbacks train_dataset train_num val_dataset val_num
        writer' use_ema' use_adv' adv_config' w = (Ret tt, w') /\
    trace w' = trace w ++ seg /\
    length (applied seg) = (Z.to_nat epochs * length train_dataset)%nat.
Proof.
  destruct (fit_reading epochs callbacks train_dataset train_num val_dataset
              val_num writer' use_ema' use_adv' adv_config' w)
    as (logs' & w' & seg & E & _ & T & _ & _ & A & _).
  by exists w', seg.
Qed.


(** X21: a call of [fit] with [epochs <= 0] runs no epoch: it calls
    [set_model], then [on_train_begin], then [on_train_end] on every
    callback in list order, every hook being handed the log as the hook
    before left it, dispatches no batch and applies no gradient; with
    callbacks that change neither the variables nor the optimizer state, it
    leaves both as they were. *)
Theorem fit_no_epochs (epochs : Z) (callbacks : list Callback)
    (train_dataset : list Batch) (train_num : Z)
    (val_dataset : list Batch) (val_num : Z)
    (writer' : option Writer) (use_ema' use_adv' : bool)
    (adv_config' : AdvConfig) (w : World) :
  (epochs <= 0)%Z ->
  exists w' seg,
    fit epochs callbacks train_dataset train_num val_dataset val_num
        writer' use_ema' use_adv' adv_config' w = (Ret tt, w') /\
    trace w' = trace w ++ seg /\
    calls seg =
      (CSetModel <$> callbacks) ++
      (CHook OnTrainBegin <$> callbacks) ++
      (CHook OnTrainEnd <$> callbacks) /\
    shared_log ∅ (view seg) /\
    dispatched seg = [] /\ applied seg = [] /\
    (Forall keeps_model callbacks -> same_model w w').
Proof.
  intros nonpos.
  assert (Z0 : Z.to_nat epochs = 0%nat) by lia.
  destruct (fit_reading epochs callbacks train_dataset train_num val_dataset
              val_num writer' use_ema' use_adv' adv_config' w)
    as (logs' & w' & seg & E & En & T & C & D & A & _ & Sh).
  rewrite Z0 in D, A. cbn in D, A.
  assert (N : applied seg = []) by (by apply nil_length_inv).
  exists w', seg. split; [exact E|]. split; [exact T|].
  split; [|split; [exact Sh|]; split; [exact D|]; split; [exact N|]].
  - rewrite C. unfold protocol_calls, epoch_indices. by rewrite Z0.
  - intros K.
    exact (enacted_model _ _ _ _ _ _ _ _ En (protocol_callers _ _ epochs K) N).
Qed.

End FitFacts.

(** ** More on the steps *)

Section StepFacts.
Context `{B : Backend}.

Ltac step_run :=
  unfold _train_step, train_step_in, optimizer_apply_gradients, ema_apply,
    bind, getattr, setattr, emit, gets, lift, ret, set_variables; cbn.

(** X7: the aggregated loss can only be a finite number if the loss of
    every paired output is: one non-finite output loss makes the total
    non-finite. *)
Theorem total_loss_finite (y_trues : list Target) (y_preds : list Pred)
    (sample_weights : option SampleWeights) :
  let n := length y_trues `min` (length y_preds `min` length loss) in
  exists total,
    _compute_total_loss y_trues y_preds sample_weights = Ret total /\
    (is_finite total ->
     Forall is_finite (omap (output_loss y_trues y_preds) (seq 0 n))).
Proof.
  intros n. eexists. split; [apply compute_total_loss_value|].
  intros F. by apply ssum_finite.
Qed.

Lemma train_step_runs (images : Image) (y_trues : list Target)
    (w : World) (adv : bool) (cfg : AdvConfig) :
  use_adv (state w) = Some adv ->
  adv_config (state w) = Some cfg ->
  is_Some (use_ema (state w)) ->
  let objective :=
    if adv then adversarial_objective cfg images y_trues
    else labeled_objective images y_trues in
  let gradients := tape_gradient objective (trainable_variables w) in
  exists seg w',
    _train_step (images, y_trues) w = (objective (trainable_variables w), w') /\
    trace w' = trace w ++ seg /\
    applied seg = [gradients] /\
    (optimizer w', trainable_variables w')
      = apply_gradients (optimizer w) gradients (trainable_variables w) /\
    state w' = state w /\ ext w' = ext w.
Proof.
  intros Eadv Ecfg [ema Eema] objective gradients. subst objective gradients.
  unfold _train_step. step_run. rewrite Eadv.
  destruct adv; step_run; rewrite ?Ecfg; step_run;
    destruct (apply_gradients _ _ _) as [o' variables'] eqn:Eapply; step_run;
    rewrite Eema; destruct ema; step_run;
    eexists _, _; (split; [reflexivity|]); cbn;
    (split; [by rewrite <- !app_assoc|]); done.
Qed.

(** X8: with the attributes assigned, one training step called directly,
    outside a replica context, returns the loss that its tape recorded at
    the parameters before the update (the labelled loss, or the adversarial
    total when [use_adv] is on), applies exactly one gradient, the one of
    that recorded loss, and the new parameters and optimizer state are what
    [apply_gradients] returned; training state and callbacks' state are
    untouched. *)
Theorem train_step_update (images : Image) (y_trues : list Target)
    (w : World) (adv : bool) (cfg : AdvConfig) :
  use_adv (state w) = Some adv ->
  adv_config (state w) = Some cfg ->
  is_Some (use_ema (state w)) ->
  let objective :=
    if adv then adversarial_objective cfg images y_trues
    else labeled_objective images y_trues in
  let gradients := tape_gradient objective (trainable_variables w) in
  exists seg w',
    _train_step (images, y_trues) w = (objective (trainable_variables w), w') /\
    trace w' = trace w ++ seg /\
    applied seg = [gradients] /\
    (optimizer w', trainable_variables w')
      = apply_gradients (optimizer w) gradients (trainable_variables w) /\
    state w' = state w /\ ext w' = ext w.
Proof.
  intros Eadv Ecfg [ema Eema] objective gradients. subst objective gradients.
  unfold _train_step. step_run. rewrite Eadv.
  destruct adv; step_run; rewrite ?Ecfg; step_run;
    destruct (apply_gradients _ _ _) as [o' variables'] eqn:Eapply; step_run;
    rewrite Eema; destruct ema; step_run;
    eexists _, _; (split; [reflexivity|]); cbn;
    (split; [by rewrite <- !app_assoc|]); done.
Qed.

(** X9: switching the moving average on changes nothing of a training
    step called directly, outside a replica context, but one event: with
    [use_ema] on or off the step returns the same loss and leaves the same
    parameters and optimizer state; with it off no moving-average update is
    made, with it on exactly one update is appended after the optimizer
    update, with decay [0.9999], debiasing on, over the parameters as
    updated. *)
Theorem ema_does_not_interfere (inputs : Batch) (w : World) :
  configured w ->
  exists l w_off w_on,
    _train_step inputs (with_use_ema w false) = (Ret l, w_off) /\
    _train_step inputs (with_use_ema w true) = (Ret l, w_on) /\
    same_model w_off w_on /\
    ema_updates (trace w_off) = ema_updates (trace w) /\
    trace w_on =
      trace w_off ++ [EvEmaApply 0.9999 true (trainable_variables w_off)].
Proof.
  intros (_ & _ & [adv Eadv] & [cfg Ecfg]).
  destruct inputs as [images y_trues].
  unfold _train_step, with_use_ema, with_state. step_run. rewrite Eadv.
  destruct adv; step_run; rewrite ?Ecfg; step_run;
    destruct (apply_gradients _ _ _) as [o' variables'] eqn:Eapply; step_run;
    eexists _, _, _; (split; [reflexivity|]); (split; [reflexivity|]); cbn;
    (split; [done|]); (split; [|done]);
    unfold ema_updates; rewrite !omap_app; cbn; by rewrite !app_nil_r.
Qed.

(** X10: with adversarial training on, the loss a training step returns
    is the loss it returns with adversarial training off plus
    [multiplier] times the adversarial loss, the provider being handed
    that labelled loss, the current parameters and the stored config. *)
Theorem adversarial_step_loss (images : Image) (y_trues : list Target)
    (w : World) (cfg : AdvConfig) :
  adv_config (state w) = Some cfg ->
  is_Some (use_ema (state w)) ->
  exists base,
    fst (_train_step (images, y_trues) (with_use_adv w false)) = Ret base /\
    fst (_train_step (images, y_trues) (with_use_adv w true)) =
      Ret (sadd base
             (smul (Fin (multiplier cfg))
                (adversarial_loss images y_trues (trainable_variables w)
                   (fun yt yp => _compute_total_loss yt yp None) base cfg))).
Proof.
  intros Ecfg [ema Eema].
  destruct (train_step_runs images y_trues (with_use_adv w false) false cfg)
    as (seg0 & w0 & E0 & _); [done | done | by exists ema |].
  destruct (train_step_runs images y_trues (with_use_adv w true) true cfg)
    as (seg1 & w1 & E1 & _); [done | done | by exists ema |].
  rewrite E0, E1. eexists. split; reflexivity.
Qed.

(** X11: on a model whose adversarial settings were never assigned
    ([use_adv] missing, or [use_adv] on with [adv_config] missing), a
    training step raises [AttributeError]; no gradient is applied and
    parameters and optimizer state stay as they were. *)
Theorem train_step_unconfigured (inputs : Batch) (w : World) :
  use_adv (state w) = None \/
  (use_adv (state w) = Some true /\ adv_config (state w) = None) ->
  exists attr w',
    _train_step inputs w = (Raise (AttributeError attr), w') /\
    same_model w w' /\ applied (trace w') = applied (trace w).
Proof.
  intros missing. destruct inputs as [images y_trues].
  unfold _train_step. step_run.
  destruct missing as [Eadv | [Eadv Ecfg]]; rewrite Eadv; step_run;
    rewrite ?Ecfg; eexists _, _; (split; [reflexivity|]); cbn;
    (split; [done|]); unfold applied; rewrite !omap_app; cbn;
    by rewrite !app_nil_r.
Qed.

End StepFacts.


(** ** More on the learning-rate schedule *)

Module ScheduleRange.
Import CosineLearningRateWithLinearWarmup.
Local Open Scope R_scope.

Lemma cosine_selected (self : t) (s : R) :
  warmup_steps self <= s -> __call__ self s = consine_lr self s.
Proof.
  intros ge. unfold __call__.
  destruct (Rlt_dec s (warmup_steps self)); [lra | done].
Qed.

Lemma consine_lr_finite (self : t) (s : R) :
  warmup_steps self <> total_steps self ->
  consine_lr self s =
    Fin (lr self *
         (cos (PI * (s - warmup_steps self) /
               (total_steps self - warmup_steps self)) + 1) / 2).
Proof.
  intros ne. unfold consine_lr.
  rewrite sdiv_nonzero by lra. simpl. by rewrite sdiv_nonzero by lra.
Qed.

Lemma angle_range (self : t) (s : R) :
  warmup_steps self < total_steps self ->
  warmup_steps self <= s -> s <= total_steps self ->
  0 <= PI * (s - warmup_steps self) / (total_steps self - warmup_steps self)
    <= PI.
Proof.
  intros lt ge le. pose proof PI_RGT_0 as pi_pos.
  set (d := total_steps self - warmup_steps self).
  assert (dpos : 0 < d) by (unfold d; lra).
  assert (ipos : 0 < / d) by (by apply Rinv_0_lt_compat).
  assert (t0 : 0 <= (s - warmup_steps self) * / d)
    by (apply Rmult_le_pos; lra).
  assert (t1 : (s - warmup_steps self) * / d <= 1).
  { apply Rmult_le_reg_r with d; [done|].
    rewrite Rmult_assoc, Rinv_l by lra. unfold d. lra. }
  unfold Rdiv. rewrite Rmult_assoc. split; nra.
Qed.

(** X1: when [warmup_steps < total_steps], the schedule is exactly zero
    at [global_step = total_steps]. *)
Theorem schedule_reaches_zero (self : t) :
  warmup_steps self < total_steps self ->
  __call__ self (total_steps self) = Fin 0.
Proof.
  intros lt. rewrite cosine_selected by lra.
  rewrite consine_lr_finite by lra.
  replace (PI * (total_steps self - warmup_steps self) /
           (total_steps self - warmup_steps self)) with PI by (field; lra).
  rewrite cos_PI. f_equal. field.
Qed.

Lemma schedule_reaches_zero_witness :
  __call__ (__init__ 1 10 0 2) 10 = Fin 0.
Proof. apply (schedule_reaches_zero (__init__ 1 10 0 2)). simpl. lra. Defined.

Lemma float32_max_large : 1024 <= float32_max.
Proof.
  unfold float32_max.
  assert (p23 : 1 <= 2 ^ 23) by (apply pow_R1_Rle; lra).
  assert (p117 : 1 <= 2 ^ 117) by (apply pow_R1_Rle; lra).
  assert (i23 : / 2 ^ 23 <= 1).
  { rewrite <- Rinv_1. apply Rinv_le_contravar; lra. }
  replace (2 ^ 127) with (1024 * 2 ^ 117)
    by (change 127%nat with (10 + 117)%nat; rewrite pow_add; simpl; lra).
  nra.
Qed.

(** X2: with a non-negative [lr] and [warmup_steps < total_steps], from
    [warmup_steps] on the schedule is a number between [0] and [lr], also
    for steps beyond [total_steps], as long as nothing overflows: twice
    [lr], the length of the cosine phase and the angle handed to the
    cosine, before and after its division, stay within the [float32]
    range. *)
Theorem cosine_phase_bounds (self : t) (s : R) :
  0 <= lr self ->
  warmup_steps self < total_steps self ->
  warmup_steps self <= s ->
  2 * lr self <= float32_max ->
  total_steps self - warmup_steps self <= float32_max ->
  PI * (s - warmup_steps self) <= float32_max ->
  PI * (s - warmup_steps self) / (total_steps self - warmup_steps self)
    <= float32_max ->
  exists v, __call__ self s = Fin v /\ 0 <= v <= lr self.
Proof.
  intros nonneg lt ge _ _ _ _. rewrite cosine_selected by done.
  rewrite consine_lr_finite by lra. eexists. split; [reflexivity|].
  pose proof (COS_bound (PI * (s - warmup_steps self) /
                         (total_steps self - warmup_steps self))) as [lo hi].
  split; nra.
Qed.

Lemma cosine_phase_bounds_witness :
  exists v, __call__ (__init__ 1 10 0 2) 25 = Fin v /\ 0 <= v <= 1.
Proof.
  pose proof float32_max_large. pose proof PI_4. pose proof PI_RGT_0.
  apply (cosine_phase_bounds (__init__ 1 10 0 2) 25); simpl; lra.
Defined.

(** X3: with a non-negative [lr] and [warmup_steps < total_steps], the
    schedule is non-increasing between [warmup_steps] and [total_steps]. *)
Theorem cosine_phase_decreasing (self : t) (s1 s2 : R) :
  0 <= lr self ->
  warmup_steps self < total_steps self ->
  warmup_steps self <= s1 -> s1 <= s2 -> s2 <= total_steps self ->
  sle (__call__ self s2) (__call__ self s1).
Proof.
  intros nonneg lt ge le below.
  rewrite !cosine_selected by lra. rewrite !consine_lr_finite by lra. simpl.
  destruct (angle_range self s1) as [a1 b1]; try lra.
  destruct (angle_range self s2) as [a2 b2]; try lra.
  assert (mono : PI * (s1 - warmup_steps self) /
                   (total_steps self - warmup_steps self)
                 <= PI * (s2 - warmup_steps self) /
                   (total_steps self - warmup_steps self)).
  { pose proof PI_RGT_0.
    assert (0 < / (total_steps self - warmup_steps self))
      by (apply Rinv_0_lt_compat; lra).
    unfold Rdiv. apply Rmult_le_compat_r; [lra|]. nra. }
  pose proof (cos_decr_1 _ _ a1 b1 a2 b2 mono). nra.
Qed.

Lemma cosine_phase_decreasing_witness :
  sle (__call__ (__init__ 1 10 0 2) 8) (__call__ (__init__ 1 10 0 2) 4).
Proof.
  apply (cosine_phase_decreasing (__init__ 1 10 0 2) 4 8); simpl; lra.
Defined.

(** X4: nothing clamps the schedule after [total_steps]. From
    [warmup_steps] on it is periodic with period
    [2 * (total_steps - warmup_steps)], so at
    [global_step = 2 * total_steps - warmup_steps] it is back at [lr]. *)
Theorem schedule_not_clamped (self : t) (s : R) :
  warmup_steps self < total_steps self ->
  warmup_steps self <= s ->
  __call__ self (s + 2 * (total_steps self - warmup_steps self))
    = __call__ self s /\
  __call__ self (2 * total_steps self - warmup_steps self) = Fin (lr self).
Proof.
  intros lt ge.
  assert (period : forall u, warmup_steps self <= u ->
            __call__ self (u + 2 * (total_steps self - warmup_steps self))
            = __call__ self u).
  { intros u geu. rewrite !cosine_selected by lra.
    rewrite !consine_lr_finite by lra.
    replace (PI * (u + 2 * (total_steps self - warmup_steps self)
                   - warmup_steps self) /
             (total_steps self - warmup_steps self))
      with (PI * (u - warmup_steps self) /
            (total_steps self - warmup_steps self) + 2 * INR 1 * PI)
      by (simpl; field; lra).
    by rewrite cos_period. }
  split; [by apply period|].
  replace (2 * total_steps self - warmup_steps self)
    with (warmup_steps self + 2 * (total_steps self - warmup_steps self))
    by lra.
  rewrite period by lra. rewrite cosine_selected by lra.
  rewrite consine_lr_finite by lra.
  replace (PI * (warmup_steps self - warmup_steps self) /
           (total_steps self - warmup_steps self)) with 0 by (field; lra).
  rewrite cos_0. f_equal. field.
Qed.

Lemma schedule_not_clamped_witness :
  __call__ (__init__ 1 10 0 2) (12 + 2 * (10 - 2))
    = __call__ (__init__ 1 10 0 2) 12 /\
  __call__ (__init__ 1 10 0 2) (2 * 10 - 2) = Fin 1.
Proof.
  apply (schedule_not_clamped (__init__ 1 10 0 2) 12); simpl; lra.
Defined.

(** X5: with [0 < warmup_steps] and [warmup_lr <= lr], the schedule starts
    at [warmup_lr] for [global_step = 0] and stays between [warmup_lr] and
    [lr] during the whole warmup. *)
Theorem warmup_range (self : t) (s : R) :
  0 < warmup_steps self ->
  warmup_lr self <= lr self ->
  0 <= s -> s < warmup_steps self ->
  __call__ self 0 = Fin (warmup_lr self) /\
  exists v, __call__ self s = Fin v /\ warmup_lr self <= v <= lr self.
Proof.
  intros pos le nonneg below.
  assert (linear : forall u, u < warmup_steps self ->
            __call__ self u =
            Fin (warmup_lr self +
                 u / warmup_steps self * (lr self - warmup_lr self))).
  { intros u lt. unfold __call__.
    destruct (Rlt_dec u (warmup_steps self)); [|lra].
    unfold linear_warmup. by rewrite sdiv_nonzero by lra. }
  split.
  - rewrite linear by lra. f_equal. field. lra.
  - rewrite linear by lra. eexists. split; [reflexivity|].
    assert (ipos : 0 < / warmup_steps self) by (by apply Rinv_0_lt_compat).
    assert (t0 : 0 <= s * / warmup_steps self) by (apply Rmult_le_pos; lra).
    assert (t1 : s * / warmup_steps self <= 1).
    { apply Rmult_le_reg_r with (warmup_steps self); [done|].
      rewrite Rmult_assoc, Rinv_l by lra. lra. }
    unfold Rdiv. split; nra.
Qed.

Lemma warmup_range_witness :
  __call__ (__init__ 1 10 0 4) 0 = Fin 0 /\
  exists v, __call__ (__init__ 1 10 0 4) 3 = Fin v /\ 0 <= v <= 1.
Proof. apply (warmup_range (__init__ 1 10 0 4) 3); simpl; lra. Defined.

(** X6: when [warmup_steps = total_steps] the cosine piece divides by
    zero: from [warmup_steps] on the schedule is not a finite number. *)
Theorem schedule_degenerate (self : t) (s : R) :
  warmup_steps self = total_steps self ->
  warmup_steps self <= s ->
  __call__ self s = NonFin.
Proof.
  intros eq ge. rewrite cosine_selected by done. unfold consine_lr.
  replace (total_steps self - warmup_steps self) with 0 by lra.
  by rewrite sdiv_zero.
Qed.

Lemma schedule_degenerate_witness :
  __call__ (__init__ 1 5 0 5) 7 = NonFin.
Proof. apply (schedule_degenerate (__init__ 1 5 0 5) 7); simpl; lra. Defined.

End ScheduleRange.


(** ** Runs of the toy model *)

Section ToyRuns.
Local Existing Instance toy.

Lemma recorder_reads_log (name : string) : reads_log (recorder name).
Proof. by intros []. Qed.

Lemma recorder_keeps_attributes (name : string) :
  keeps_attributes (recorder name).
Proof. split; [done | by intros []]. Qed.


Lemma toy_fitting_configured : configured toy_fitting.
Proof. unfold configured. cbn. eauto. Qed.

Lemma extra_key_not_loss_keys (logs : Log) :
  is_Some (logs !! "lr") -> dom logs <> loss_keys.
Proof.
  intros H E. apply elem_of_dom in H. rewrite E in H. unfold loss_keys in H.
  apply elem_of_union in H as [H|H]; apply elem_of_singleton in H;
    discriminate.
Qed.

Lemma epoch_end_logs_quiet (seg : list Event) :
  view seg = [] -> epoch_end_logs seg = [].
Proof. unfold epoch_end_logs. by intros ->. Qed.

(** One epoch with [lr_logger] as the only callback: [on_epoch_end] is
    handed the incoming log with the two losses stored, and leaves its own
    entry in it. *)
Lemma lr_logger_epoch (train_dataset val_dataset : list Batch) (epoch : Z)
    (logs : Log) (w : World) (logs' : Log) (w' : World) (seg : list Event) :
  enacted train_dataset val_dataset (epoch_calls [lr_logger] epoch)
    logs w logs' w' seg ->
  exists train_loss val_loss,
    let handed_log :=
      <["val_loss" := val_loss]> (<["loss" := train_loss]> logs) in
    logs' = <["lr" := Fin 0.1]> handed_log /\
    epoch_end_logs seg = [(epoch, handed_log)].
Proof.
  intros H. unfold epoch_calls in H. cbn [fmap list_fmap] in H.
  apply enacted_app_inv in H as (l1 & w1 & s1 & s2 & H1 & H & ->).
  apply enacted_app_inv in H as (l2 & w2 & s3 & s4 & H2 & H3 & ->).
  apply enacted_hook in H1 as [-> V1]. cbn [method lr_logger on_epoch_begin fst]
    in *.
  apply enacted_epochs in H2 as (train_loss & val_loss & -> & V2).
  apply enacted_hook in H3 as [-> V3]. cbn [method lr_logger on_epoch_end fst]
    in *.
  exists train_loss, val_loss. split; [done|].
  rewrite !epoch_end_logs_app. unfold epoch_end_logs. by rewrite V1, V2, V3.
Qed.

(** C3, as stated, fails: with two epochs, one batch per dataset and a
    callback that writes ["lr"] into the log at the end of each epoch, the
    log handed to [on_epoch_end] in epoch 1 already holds the ["lr"] entry
    written in epoch 0: it was not rebuilt, and it has a key besides
    ["loss"] and ["val_loss"]. *)
Lemma epoch_end_log_carries_entries :
  exists logs,
    epoch_end_logs
      (trace (snd (fit 2 [lr_logger] [toy_batch] 1 [toy_batch] 1
                       None false false default_adv_config toy_world)))
      !! 1%nat = Some (1%Z, logs) /\
    logs !! "lr" = Some (Fin 0.1) /\ dom logs <> loss_keys.
Proof.
  destruct (fit_enacted [toy_batch] 1 [toy_batch] 1 2 [lr_logger]
              None false false default_adv_config toy_world)
    as (logs' & w' & seg & E & En & _).
  rewrite E. cbn [snd]. rewrite (enacted_trace _ _ _ _ _ _ _ _ En).
  cbn [trace with_state toy_world app].
  unfold protocol_calls in En. change (epoch_indices 2) with [0; 1]%Z in En.
  cbn [fmap list_fmap concat] in En.
  apply enacted_app_inv in En as (l1 & w1 & s1 & sa & H1 & En & ->).
  apply enacted_app_inv in En as (l2 & w2 & s2 & sb & H2 & En & ->).
  apply enacted_app_inv in En as (l3 & w3 & sc & sd & H & En & ->).
  apply enacted_app_inv in H as (l4 & w4 & s3 & se & H3 & H & ->).
  apply enacted_app_inv in H as (l5 & w5 & s4 & sf & H4 & H & ->).
  apply (enacted_set_models _ _ [lr_logger]) in H1 as [-> V1].
  apply enacted_hook in H2 as [-> V2].
  cbn [method lr_logger on_train_begin fst] in *.
  apply lr_logger_epoch in H3 as (t0 & v0 & -> & K3).
  apply lr_logger_epoch in H4 as (t1 & v1 & -> & K4).
  rewrite !epoch_end_logs_app, K3, K4, (epoch_end_logs_quiet _ V1).
  unfold epoch_end_logs at 1. rewrite V2. cbn [omap list_omap app lookup
    list_lookup].
  eexists. split; [reflexivity|].
  assert (L : (<["val_loss" := v1]>
                 (<["loss" := t1]>
                    (<["lr" := Fin 0.1]>
                       (<["val_loss" := v0]> (<["loss" := t0]> (∅ : Log))))))
              !! "lr" = Some (Fin 0.1)).
  { rewrite lookup_insert_ne by done. rewrite lookup_insert_ne by done.
    by rewrite lookup_insert_eq. }
  split; [exact L|]. apply extra_key_not_loss_keys. rewrite L. eauto.
Qed.

Lemma epoch_end_log_keys_witness :
  Forall reads_log [recorder "first"; recorder "second"] /\
  exists w' seg,
    fit 2 [recorder "first"; recorder "second"] [toy_batch] 1 [toy_batch] 1
        None false false default_adv_config toy_world = (Ret tt, w') /\
    trace w' = trace toy_world ++ seg /\
    calls seg = protocol_calls [recorder "first"; recorder "second"] 2 /\
    shared_log ∅ (view seg) /\
    Forall (fun '(_, logs) => dom logs = loss_keys) (epoch_end_logs seg).
Proof.
  assert (reads : Forall reads_log [recorder "first"; recorder "second"])
    by (repeat constructor; apply recorder_reads_log).
  split; [exact reads|].
  destruct (epoch_end_log_keys 2 [recorder "first"; recorder "second"]
              [toy_batch] 1 [toy_batch] 1
              None false false default_adv_config toy_world)
    as (w' & seg & E & T & C & Sh & K).
  exists w', seg. exact (conj E (conj T (conj C (conj Sh (K reads))))).
Defined.

(** C4, as stated, fails: on a model with no attribute assigned, one call
    of [fit] with the default arguments (one epoch, one batch per dataset)
    returns with all four attributes still set. *)
Lemma fit_leaves_state_set :
  let w' := snd (fit 1 [recorder "first"] [toy_batch] 1 [toy_batch] 1
                     None false false default_adv_config toy_world) in
  state toy_world = unset /\
  writer (state w') = Some None /\
  use_ema (state w') = Some false /\
  use_adv (state w') = Some false /\
  adv_config (state w') = Some default_adv_config /\
  state w' <> unset.
Proof.
  destruct (fit_enacted [toy_batch] 1 [toy_batch] 1 1 [recorder "first"]
              None false false default_adv_config toy_world)
    as (logs' & w' & seg & E & En & _).
  assert (K : Forall keeps_attributes [recorder "first"])
    by (repeat constructor; apply recorder_keeps_attributes).
  pose proof (enacted_attributes _ _ _ _ _ _ _ _ En
                (protocol_callers _ _ 1 K)) as S.
  cbv zeta. rewrite E. cbn [snd]. rewrite S. by repeat split.
Qed.

Lemma fit_state_persists_witness :
  Forall keeps_attributes [recorder "first"; recorder "second"] /\
  exists w',
    fit 2 [recorder "first"; recorder "second"] [toy_batch] 1 [toy_batch] 1
        (Some tt) true false default_adv_config toy_world = (Ret tt, w') /\
    state w' = stored (Some tt) true false default_adv_config.
Proof.
  assert (K : Forall keeps_attributes [recorder "first"; recorder "second"])
    by (repeat constructor; apply recorder_keeps_attributes).
  split; [exact K|].
  exact (fit_state_persists 2 [recorder "first"; recorder "second"]
           [toy_batch] 1 [toy_batch] 1 (Some tt) true false
           default_adv_config toy_world K).
Defined.

(** The protocol for one callback and two epochs, spelled out. *)
Example protocol_calls_two_epochs (callback : Callback) :
  protocol_calls [callback] 2 =
    [CSetModel callback; CHook OnTrainBegin callback;
     CHook (OnEpochBegin 0) callback; CEpoch true; CEpoch false;
     CHook (OnEpochEnd 0) callback;
     CHook (OnEpochBegin 1) callback; CEpoch true; CEpoch false;
     CHook (OnEpochEnd 1) callback;
     CHook OnTrainEnd callback].
Proof. reflexivity. Qed.

(** C6, as stated, fails: with a first callback that writes an entry into
    the log in [on_train_begin], the second callback's [on_train_begin] is
    handed a log that is not empty. *)
Lemma train_begin_log_not_empty :
  exists logs,
    train_begin_logs
      (trace (snd (fit 1 [greeter; recorder "second"]
                       [toy_batch] 1 [toy_batch] 1
                       None false false default_adv_config toy_world)))
      !! 1%nat = Some logs /\
    logs !! "started" = Some (Fin 1) /\ logs <> ∅.
Proof.
  destruct (fit_enacted [toy_batch] 1 [toy_batch] 1 1
              [greeter; recorder "second"]
              None false false default_adv_config toy_world)
    as (logs' & w' & seg & E & En & _).
  rewrite E. cbn [snd]. rewrite (enacted_trace _ _ _ _ _ _ _ _ En).
  cbn [trace with_state toy_world app].
  unfold protocol_calls in En. cbn [fmap list_fmap] in En.
  apply enacted_app_inv in En as (l1 & w1 & s1 & sa & H1 & En & ->).
  change [CHook OnTrainBegin greeter; CHook OnTrainBegin (recorder "second")]
    with ([CHook OnTrainBegin greeter] ++
          [CHook OnTrainBegin (recorder "second")]) in En.
  rewrite <- app_assoc in En.
  apply enacted_app_inv in En as (l2 & w2 & s2 & sb & H2 & En & ->).
  apply enacted_app_inv in En as (l3 & w3 & s3 & sc & H3 & En & ->).
  apply (enacted_set_models _ _ [greeter; recorder "second"]) in H1
    as [-> V1].
  apply enacted_hook in H2 as [-> V2].
  cbn [method greeter on_train_begin fst] in *.
  apply enacted_hook in H3 as [-> V3].
  cbn [method recorder on_train_begin fst] in *.
  rewrite !train_begin_logs_app. unfold train_begin_logs at 1 2 3.
  rewrite V1, V2, V3. cbn [omap list_omap app lookup list_lookup].
  eexists. split; [reflexivity|].
  split; [by rewrite lookup_insert_eq | apply insert_non_empty].
Qed.

Lemma distributed_epoch_mean_witness :
  is_Some (writer (state toy_fitting)) /\
  is_Some (use_ema (state toy_fitting)) /\
  use_adv (state toy_fitting) = Some false /\
  adv_config (state toy_fitting) = Some default_adv_config /\
  let losses :=
    batch_losses true false default_adv_config (0%nat, 1%R)
      [toy_batch; toy_batch] in
  let mean := sdiv (ssum losses) (INR 2) in
  exists body w',
    _distributed_epoch [toy_batch; toy_batch] true 5 toy_fitting
      = (Ret mean, w') /\
    trace w' = trace toy_fitting ++ body ++ [EvEpochResult true mean] /\
    dispatched body = [(true, toy_batch); (true, toy_batch)] /\
    reductions body = losses /\
    length losses = 2%nat.
Proof.
  assert (wr : is_Some (writer (state toy_fitting))) by (cbn; eauto).
  assert (ema : is_Some (use_ema (state toy_fitting))) by (cbn; eauto).
  split; [exact wr|]. split; [exact ema|]. split; [done|]. split; [done|].
  exact (distributed_epoch_mean [toy_batch; toy_batch] true 5 toy_fitting
           false default_adv_config wr ema eq_refl eq_refl).
Defined.

(** On the two replicas of the toy model the reduced loss of a batch is
    the sum of the two replica losses, both taken at the variables the
    batch started from: [1] on each replica at the start, [13] on each
    after the one update of the first batch. *)
Example toy_batch_losses :
  batch_losses true false default_adv_config (0%nat, 1%R)
    [toy_batch; toy_batch] = [Fin 2; Fin 26].
Proof.
  cbn. unfold squared_error. cbn. repeat f_equal; lra.
Qed.

Lemma empty_dataset_mean_witness :
  configured toy_fitting /\
  (exists w', _distributed_epoch [] true 3 toy_fitting
              = (Ret (sdiv (Fin 0) 0), w')) /\
  ~ is_finite (sdiv (Fin 0) 0).
Proof.
  split; [exact toy_fitting_configured|].
  destruct (empty_dataset_mean toy_fitting toy_fitting_configured)
    as (E & N & _).
  split; [exact (E true 3%Z) | exact N].
Defined.

End ToyRuns.

(** ** The further properties on the toy model *)

Section ToyChecks.
Local Existing Instance toy.

Lemma train_step_update_witness :
  use_adv (state toy_fitting) = Some false /\
  adv_config (state toy_fitting) = Some default_adv_config /\
  is_Some (use_ema (state toy_fitting)) /\
  exists seg w',
    _train_step toy_batch toy_fitting
      = (labeled_objective 1%R [1%R; 2%R] 1%R, w') /\
    trace w' = trace toy_fitting ++ seg /\
    applied seg = [1%R] /\
    (optimizer w', trainable_variables w') = (1%nat, (1 - 1)%R) /\
    state w' = state toy_fitting /\ ext w' = ext toy_fitting.
Proof.
  assert (ema : is_Some (use_ema (state toy_fitting))) by (cbn; eauto).
  repeat (split; [done|]).
  exact (train_step_update 1%R [1%R; 2%R] toy_fitting false
           default_adv_config eq_refl eq_refl ema).
Defined.

Lemma ema_does_not_interfere_witness :
  configured toy_fitting /\
  exists l w_off w_on,
    _train_step toy_batch (with_use_ema toy_fitting false) = (Ret l, w_off) /\
    _train_step toy_batch (with_use_ema toy_fitting true) = (Ret l, w_on) /\
    same_model w_off w_on /\
    ema_updates (trace w_off) = ema_updates (trace toy_fitting) /\
    trace w_on =
      trace w_off ++ [EvEmaApply 0.9999 true (trainable_variables w_off)].
Proof.
  split; [exact toy_fitting_configured|].
  exact (ema_does_not_interfere toy_batch toy_fitting toy_fitting_configured).
Defined.

Lemma adversarial_step_loss_witness :
  adv_config (state toy_fitting) = Some default_adv_config /\
  is_Some (use_ema (state toy_fitting)) /\
  exists base,
    fst (_train_step toy_batch (with_use_adv toy_fitting false)) = Ret base /\
    fst (_train_step toy_batch (with_use_adv toy_fitting true)) =
      Ret (sadd base (smul (Fin (multiplier default_adv_config)) (Fin 0))).
Proof.
  assert (ema : is_Some (use_ema (state toy_fitting))) by (cbn; eauto).
  split; [done|]. split; [exact ema|].
  exact (adversarial_step_loss 1%R [1%R; 2%R] toy_fitting default_adv_config
           eq_refl ema).
Defined.

Lemma train_step_unconfigured_witness :
  use_adv (state toy_world) = None /\
  exists attr w',
    _train_step toy_batch toy_world = (Raise (AttributeError attr), w') /\
    same_model toy_world w' /\ applied (trace w') = applied (trace toy_world).
Proof.
  split; [done|].
  exact (train_step_unconfigured toy_batch toy_world (or_introl eq_refl)).
Defined.

Lemma epoch_progress_lines_witness :
  configured toy_fitting /\
  exists body mean w',
    _distributed_epoch [toy_batch; toy_batch] true 2 toy_fitting
      = (Ret mean, w') /\
    progress body =
      (fun k => (INR k, sdiv (ssum (take k (reductions body))) (INR k)))
        <$> [1; 2]%nat /\
    last (progress body).*2 = Some mean.
Proof.
  split; [exact toy_fitting_configured|].
  destruct (epoch_progress_lines [toy_batch; toy_batch] true 2 toy_fitting
              toy_fitting_configured)
    as (body & mean & w' & E & _ & _ & P & L).
  exists body, mean, w'. exact (conj E (conj P L)).
Defined.


Lemma validation_epoch_frame_witness :
  configured toy_fitting /\
  exists mean seg w',
    _distributed_epoch [toy_batch] false 1 toy_fitting = (Ret mean, w') /\
    trace w' = trace toy_fitting ++ seg /\
    applied seg = [] /\ same_model toy_fitting w' /\
    state w' = state toy_fitting.
Proof.
  split; [exact toy_fitting_configured|].
  exact (validation_epoch_frame [toy_batch] 1 toy_fitting toy_fitting_configured).
Defined.

(** On the two replicas of the toy model a batch makes one update, by the
    sum of the two replica gradients. *)
Example toy_batch_gradients :
  batch_gradients false default_adv_config (0%nat, 1%R)
    [toy_batch; toy_batch] = [(1 + (1 + 0))%R; (1 + (1 + 0))%R] /\
  fst (after_epoch true false default_adv_config (0%nat, 1%R)
         [toy_batch; toy_batch]) = 2%nat.
Proof. split; reflexivity. Qed.

Lemma training_epoch_updates_witness :
  is_Some (writer (state toy_fitting)) /\
  is_Some (use_ema (state toy_fitting)) /\
  use_adv (state toy_fitting) = Some false /\
  adv_config (state toy_fitting) = Some default_adv_config /\
  exists mean seg w',
    _distributed_epoch [toy_batch; toy_batch] true 2 toy_fitting
      = (Ret mean, w') /\
    trace w' = trace toy_fitting ++ seg /\
    dispatched seg = [(true, toy_batch); (true, toy_batch)] /\
    applied seg =
      batch_gradients false default_adv_config (0%nat, 1%R)
        [toy_batch; toy_batch] /\
    length (applied seg) = 2%nat /\
    (optimizer w', trainable_variables w') =
      after_epoch true false default_adv_config (0%nat, 1%R)
        [toy_batch; toy_batch].
Proof.
  assert (wr : is_Some (writer (state toy_fitting))) by (cbn; eauto).
  assert (ema : is_Some (use_ema (state toy_fitting))) by (cbn; eauto).
  split; [exact wr|]. split; [exact ema|]. split; [done|]. split; [done|].
  exact (training_epoch_updates [toy_batch; toy_batch] 2 toy_fitting
           false default_adv_config wr ema eq_refl eq_refl).
Defined.

Lemma epoch_mean_finite_witness :
  configured toy_fitting /\
  exists body mean w',
    _distributed_epoch [toy_batch] false 1 toy_fitting = (Ret mean, w') /\
    (is_finite mean ->
     [toy_batch] <> [] /\ Forall is_finite (reductions body)).
Proof.
  split; [exact toy_fitting_configured|].
  destruct (epoch_mean_finite [toy_batch] false 1 toy_fitting toy_fitting_configured)
    as (body & mean & w' & E & _ & _ & F).
  exists body, mean, w'. exact (conj E F).
Defined.

Lemma epoch_unconfigured_witness :
  writer (state toy_world) = None /\
  _distributed_epoch [toy_batch] true 1 toy_world
    = (Raise (AttributeError "writer"), toy_world).
Proof.
  split; [done|].
  exact (epoch_unconfigured toy_batch [] true 1 toy_world eq_refl).
Defined.


Lemma fit_no_epochs_witness :
  (-1 <= 0)%Z /\
  exists w' seg,
    fit (-1) [recorder "first"; lr_logger] [toy_batch] 1 [toy_batch] 1
        None false false default_adv_config toy_world = (Ret tt, w') /\
    trace w' = trace toy_world ++ seg /\
    calls seg =
      [CSetModel (recorder "first"); CSetModel lr_logger;
       CHook OnTrainBegin (recorder "first"); CHook OnTrainBegin lr_logger;
       CHook OnTrainEnd (recorder "first"); CHook OnTrainEnd lr_logger] /\
    shared_log ∅ (view seg) /\
    dispatched seg = [] /\ applied seg = [].
Proof.
  assert (nonpos : (-1 <= 0)%Z) by lia.
  split; [exact nonpos|].
  destruct (fit_no_epochs (-1) [recorder "first"; lr_logger]
              [toy_batch] 1 [toy_batch] 1
              None false false default_adv_config toy_world nonpos)
    as (w' & seg & E & T & C & Sh & D & A & _).
  exists w', seg. exact (conj E (conj T (conj C (conj Sh (conj D A))))).
Defined.

End ToyChecks.
